(** * The Wordle card: guess evaluation, round state and word acquisition

    A shallow embedding of the game-board component of the Wordle UI
    extension and of the word provider it calls, followed by the
    properties the specification states about them.

    The repository holds four revisions of the game board:
    - [ExtensionsBoard]: src/app/extensions/components/GameBoard.tsx, which
      calls [hubspot.fetch] itself and falls back to the word REACT;
    - [NoFallbackBoard]: the board of unnamed/part_000, which receives
      [getRandomWord] from its parent and sets no fallback word;
    - [ReactFallbackBoard]: the first board of unnamed/part_001, which
      receives [getRandomWord] and falls back to the word REACT;
    - [FallbackListBoard]: the second board of unnamed/part_001, which
      receives [getRandomWord] and falls back to a word of FALLBACK_WORDS.

    One definition per source function covers the four revisions, with the
    revision as an argument wherever they differ.

    Modelling conventions.  A JavaScript string is a [string] of 8-bit
    characters, exact for ASCII text (the text the game is played with);
    [String.length] is then the [.length] of the source.  React state is a
    record; a handler is a function from the record it closes over to the
    record after its setters have run, together with the alerts it sends.
    An [async] function is split at its [await]: the part that runs at the
    call and the part that runs when the awaited promise settles. *)

From Stdlib Require Import String Ascii List Arith Bool Lia DecimalString.
Import ListNotations.
Open Scope string_scope.
Open Scope list_scope.
Open Scope nat_scope.

(** ** JavaScript primitives the components use *)

Module Js.

(** [c.toUpperCase()] on one ASCII character: a-z move to A-Z. *)
Definition toUpperCase_char (c : ascii) : ascii :=
  let n := nat_of_ascii c in
  if (97 <=? n) && (n <=? 122) then ascii_of_nat (n - 32) else c.

(** [s.toUpperCase()] on ASCII text.  On other text the library function
    also maps letters outside a-z and may lengthen the string; the
    embedding is exact only where the text is ASCII, and a statement that
    is to hold of all text uses [toUpperCase] without relying on
    [toUpperCase_length]. *)
Fixpoint toUpperCase (s : string) : string :=
  match s with
  | EmptyString => EmptyString
  | String c rest => String (toUpperCase_char c) (toUpperCase rest)
  end.

(** [s.includes(sub)]: [sub] occurs in [s] at some offset. *)
Fixpoint includes (s sub : string) : bool :=
  String.prefix sub s ||
  match s with
  | EmptyString => false
  | String _ rest => includes rest sub
  end.

(** A property of a parsed JSON object that is read as a string: [None] is
    a missing (undefined or null) property, [Some s] a string.  A property
    holding a number, a boolean or an object is outside the embedding (on a
    truthy one [word.toUpperCase()] would throw inside the try block). *)
Definition property := option string.

(** Truthiness of such a property: missing and the empty string are falsy. *)
Definition truthy (p : property) : bool :=
  match p with
  | Some (String _ _) => true
  | _ => false
  end.

(** Truthiness of a string held in state. *)
Definition truthy_string (s : string) : bool :=
  match s with
  | EmptyString => false
  | String _ _ => true
  end.

(** The string a truthy property holds. *)
Definition text_of (p : property) : string :=
  match p with
  | Some s => s
  | None => EmptyString
  end.

(** [p || fallback] where the result is used as a string. *)
Definition or_else (p : property) (fallback : string) : string :=
  if truthy p then text_of p else fallback.

(** A number interpolated into a template string. *)
Definition string_of_nat (n : nat) : string :=
  NilEmpty.string_of_uint (Nat.to_uint n).

(** The value of [Math.random()], a real number r with 0 <= r < 1, given as
    the fraction [rnd_num / rnd_den]. *)
Record random := mkRandom { rnd_num : nat; rnd_den : nat }.

(** The contract of [Math.random()]: the fraction lies in [0, 1). *)
Definition in_unit_interval (r : random) : Prop := rnd_num r < rnd_den r.

(** [Math.floor(r * n)]. *)
Definition floor_scaled (r : random) (n : nat) : nat :=
  (rnd_num r * n) / rnd_den r.

End Js.

(** ** The guess evaluator (specification section 4.2) *)

Module Evaluator.

Inductive classification := Correct | Present | Absent.

(** The available count of every letter. *)
Definition counts := ascii -> nat.

(** The multiset of the letters of the secret word. *)
Definition multiset_of (secret : list ascii) : counts :=
  fun c => count_occ ascii_dec secret c.

(** One occurrence of [c] is claimed. *)
Definition decrement (c : ascii) (avail : counts) : counts :=
  fun x => if Ascii.eqb x c then avail x - 1 else avail x.

(** First pass: a position whose guessed letter equals the secret's letter
    is marked and claims one occurrence of that letter. *)
Fixpoint first_pass (guess secret : list ascii) (avail : counts)
  : list bool * counts :=
  match guess with
  | [] => ([], avail)
  | g :: guess' =>
      match secret with
      | s :: secret' =>
          if Ascii.eqb g s
          then let (marks, avail') := first_pass guess' secret' (decrement g avail) in
               (true :: marks, avail')
          else let (marks, avail') := first_pass guess' secret' avail in
               (false :: marks, avail')
      | [] =>
          let (marks, avail') := first_pass guess' [] avail in
          (false :: marks, avail')
      end
  end.

(** Second pass: a position not marked by the first pass is Present, and
    claims one occurrence, when its letter still has an available
    occurrence; otherwise it is Absent. *)
Fixpoint second_pass (guess : list ascii) (marks : list bool) (avail : counts)
  : list classification :=
  match guess, marks with
  | g :: guess', true :: marks' => Correct :: second_pass guess' marks' avail
  | g :: guess', false :: marks' =>
      if 0 <? avail g
      then Present :: second_pass guess' marks' (decrement g avail)
      else Absent :: second_pass guess' marks' avail
  | _, _ => []
  end.

(** Modelled from the spec: the evaluation of a guess against the secret
    word.  The component that computes it, GuessRow (imported by every
    game board from "./GuessRow"), is not among the source files; the
    definition follows the two passes of section 4.2. *)
Definition evaluate (guess secret : string) : list classification :=
  let g := list_ascii_of_string guess in
  let s := list_ascii_of_string secret in
  let (marks, avail) := first_pass g s (multiset_of s) in
  second_pass g marks avail.

(** *** The rule stated position by position

    The definitions below say what the two passes compute without running
    them: they count positions. *)

(** The letter at a position, if any. *)
Definition letter_at (w : string) (i : nat) : option ascii :=
  nth_error (list_ascii_of_string w) i.

(** Position [i] of the guess holds the letter the secret holds there. *)
Definition exact_match (guess secret : list ascii) (i : nat) : bool :=
  match nth_error guess i, nth_error secret i with
  | Some g, Some s => Ascii.eqb g s
  | _, _ => false
  end.

(** The number of positions at which the guess and the secret both hold [c]. *)
Fixpoint exact_hits (guess secret : list ascii) (c : ascii) : nat :=
  match guess, secret with
  | g :: guess', s :: secret' =>
      (if Ascii.eqb g s && Ascii.eqb g c then 1 else 0)
      + exact_hits guess' secret' c
  | _, _ => 0
  end.

(** The number of positions before [i] at which the guess holds [c] and the
    secret holds another letter. *)
Fixpoint misses_before (i : nat) (guess secret : list ascii) (c : ascii) : nat :=
  match i, guess with
  | S i', g :: guess' =>
      (if negb (exact_match (g :: guess') secret 0) && Ascii.eqb g c then 1 else 0)
      + misses_before i' guess' (tl secret) c
  | _, _ => 0
  end.

(** The classification of position [i] by the rule: Correct on an exact
    match; otherwise Present exactly when fewer earlier unmatched positions
    hold the same letter than the secret has occurrences of it left after
    the exact matches. *)
Definition rule_at (guess secret : list ascii) (i : nat) : option classification :=
  match nth_error guess i with
  | None => None
  | Some g =>
      if exact_match guess secret i then Some Correct
      else if misses_before i guess secret g
              <? count_occ ascii_dec secret g - exact_hits guess secret g
           then Some Present
           else Some Absent
  end.

Definition is_absent (r : classification) : bool :=
  match r with
  | Absent => true
  | _ => false
  end.

(** The number of positions holding [c] in the guess that are classified
    Correct or Present. *)
Fixpoint claimed (guess : list ascii) (result : list classification) (c : ascii)
  : nat :=
  match guess, result with
  | g :: guess', r :: result' =>
      (if Ascii.eqb g c && negb (is_absent r) then 1 else 0)
      + claimed guess' result' c
  | _, _ => 0
  end.

End Evaluator.

(** ** The word provider *)

Module Provider.
Import Js.

(** The message of a thrown [Error]. *)
Definition exn := string.

(** The object [response.json()] resolves to: the properties the code reads. *)
Record json_body := mkBody {
  j_word : property;
  j_error : property;
  j_message : property
}.

(** The outcome of [await response.json()]: an object, or a rejection (a
    body that is not JSON, or not an object). *)
Inductive json_result :=
| JsonParsed (data : json_body)
| JsonRejected (message : string).

(** The outcome of [await hubspot.fetch(...)] and of reading the body: the
    request is rejected (network failure), or a response arrives. *)
Inductive fetch_outcome :=
| FetchRejected (message : string)
| FetchResponse (status : nat) (statusText : string) (body : json_result).

(** [response.ok]: the status is in the range 200-299. *)
Definition response_ok (status : nat) : bool :=
  (200 <=? status) && (status <=? 299).

(** [getRandomWord] of src/app/cards/Wordle.tsx, from the settled request
    on: it returns the parsed object or throws; its catch block logs and
    throws the error again, and sends no alert.  (The older card quoted at
    the end of README.md also calls [sendAlert] there; the card under
    src/app/cards is the one embedded.) *)
Definition getRandomWord (o : fetch_outcome) : exn + json_body :=
  match o with
  | FetchRejected message => inl message
  | FetchResponse status statusText body =>
      if negb (response_ok status)
      then inl ("HTTP error! status: " ++ string_of_nat status ++ " " ++ statusText)%string
      else match body with
           | JsonRejected message => inl message
           | JsonParsed data =>
               if negb (truthy (j_word data))
               then inl "Invalid response: missing word property"%string
               else inr data
           end
  end.

(** The failures of word acquisition the specification names: a network
    failure, a status outside 200-299, a body that cannot be read, and a
    response whose [word] property is missing or empty. *)
Definition acquisition_fails (o : fetch_outcome) : bool :=
  match o with
  | FetchRejected _ => true
  | FetchResponse status _ body =>
      negb (response_ok status) ||
      match body with
      | JsonRejected _ => true
      | JsonParsed data => negb (truthy (j_word data))
      end
  end.

End Provider.

(** ** The game board *)

Module GameBoard.
Import Js Provider.

Inductive variant :=
| ExtensionsBoard
| NoFallbackBoard
| ReactFallbackBoard
| FallbackListBoard.

(** The boards that start without a word and wait for one: they test
    [!targetWord] in [handleSubmitGuess] and compute [gameReady]. *)
Definition waitsForWord (v : variant) : bool :=
  match v with
  | NoFallbackBoard | FallbackListBoard => true
  | ExtensionsBoard | ReactFallbackBoard => false
  end.

(** The five [useState] cells. *)
Record state := mkState {
  currentGuess : string;
  guesses : list string;
  targetWord : string;
  isGameOver : bool;
  isLoading : bool
}.

Definition setCurrentGuess (x : string) (s : state) : state :=
  mkState x (guesses s) (targetWord s) (isGameOver s) (isLoading s).

Definition setGuesses (x : list string) (s : state) : state :=
  mkState (currentGuess s) x (targetWord s) (isGameOver s) (isLoading s).

Definition setTargetWord (x : string) (s : state) : state :=
  mkState (currentGuess s) (guesses s) x (isGameOver s) (isLoading s).

Definition setIsGameOver (x : bool) (s : state) : state :=
  mkState (currentGuess s) (guesses s) (targetWord s) x (isLoading s).

Definition setIsLoading (x : bool) (s : state) : state :=
  mkState (currentGuess s) (guesses s) (targetWord s) (isGameOver s) x.

(** The initial values of the cells. *)
Definition initial (v : variant) : state :=
  mkState EmptyString [] (if waitsForWord v then EmptyString else "REACT") false false.

(** The object passed to [sendAlert]: ExtensionsBoard fills [message] and
    [type], the other boards [title], [message] and [variant]. *)
Record alert := mkAlert {
  alert_title : option string;
  alert_message : string;
  alert_type : option string;
  alert_variant : option string
}.

(** The alerts of [handleSubmitGuess].  Only the boards that wait for a
    word send the first one. *)
Definition notReadyAlert : alert :=
  mkAlert (Some "Game Not Ready") "Please wait for the word to load." None (Some "warning").

Definition invalidGuessAlert (v : variant) : alert :=
  match v with
  | ExtensionsBoard => mkAlert None "Guess must be 5 letters!" (Some "danger") None
  | _ => mkAlert (Some "Invalid Guess") "Guess must be 5 letters!" None (Some "danger")
  end.

Definition gameOverAlert (v : variant) : alert :=
  match v with
  | ExtensionsBoard =>
      mkAlert None "Game over! You've used all 5 guesses." (Some "danger") None
  | _ => mkAlert (Some "Game Over") "You've used all 5 guesses." None (Some "danger")
  end.

(** The success alert.  The message is the string literal of each source
    file, byte for byte: the files of ExtensionsBoard and NoFallbackBoard
    hold four mis-decoded characters where those of part_001 hold the
    party-popper emoji. *)
Definition wonAlert (v : variant) : alert :=
  match v with
  | ExtensionsBoard =>
      mkAlert None "Congratulations! You've won! ðŸŽ‰" (Some "success") None
  | NoFallbackBoard =>
      mkAlert (Some "Congratulations!") "You've won! ðŸŽ‰" None (Some "success")
  | ReactFallbackBoard | FallbackListBoard =>
      mkAlert (Some "Congratulations!") "You've won! 🎉" None (Some "success")
  end.

(** [const gameEnded = isGameOver || guesses.length >= 5]. *)
Definition gameEnded (s : state) : bool :=
  isGameOver s || (5 <=? length (guesses s)).

(** [const gameReady = targetWord && !isLoading]. *)
Definition gameReady (s : state) : bool :=
  truthy_string (targetWord s) && negb (isLoading s).

(** [handleSubmitGuess]: the state after the call and the alerts sent. *)
Definition handleSubmitGuess (v : variant) (s : state) : state * list alert :=
  if waitsForWord v && negb (truthy_string (targetWord s)) then (s, [notReadyAlert])
  else if negb (String.length (currentGuess s) =? 5) then (s, [invalidGuessAlert v])
  else if 5 <=? length (guesses s) then (s, [gameOverAlert v])
  else
    let upperGuess := toUpperCase (currentGuess s) in
    let s1 := setCurrentGuess EmptyString (setGuesses (guesses s ++ [upperGuess]) s) in
    if String.eqb upperGuess (targetWord s)
    then (setIsGameOver true s1, [wonAlert v])
    else (s1, []).

(** [FALLBACK_WORDS] of FallbackListBoard. *)
Definition FALLBACK_WORDS : list string :=
  [ "REACT"; "WORLD"; "GAMES"; "HAPPY"; "LEARN"; "BUILD"; "SHARE"; "DREAM";
    "PEACE"; "LOVE"; "HOPE"; "JOY"; "FUN"; "TEAM"; "CODE"; "TECH" ]%string.

(** The try block of [fetchNewWord] from the settled request on: the
    upper-cased word that reaches [setTargetWord], or the error thrown. *)
Definition tryAcquire (v : variant) (o : fetch_outcome) : exn + string :=
  match v with
  | ExtensionsBoard =>
      match o with
      | FetchRejected message => inl message
      | FetchResponse status _ body =>
          if negb (response_ok status)
          then
            let errorMessage := ("HTTP " ++ string_of_nat status)%string in
            match body with
            | JsonParsed errorData =>
                inl (or_else (j_error errorData)
                             (or_else (j_message errorData) errorMessage))
            | JsonRejected _ => inl errorMessage
            end
          else
            match body with
            | JsonRejected message => inl message
            | JsonParsed data =>
                let word := j_word data in
                if negb (truthy word) then inl "No word received from server"%string
                else inr (toUpperCase (text_of word))
            end
      end
  | _ =>
      match getRandomWord o with
      | inl error => inl error
      | inr data =>
          let word := j_word data in
          if negb (truthy word) then inl "No word received from server"%string
          else inr (toUpperCase (text_of word))
      end
  end.

(** The message chosen in the catch block of the boards that report an
    error. *)
Definition userMessage (message : string) : string :=
  if includes message "404" then "Word service not found. Please contact support."
  else if includes message "500" then "Word service is temporarily down. Please try again."
  else if includes message "Failed to fetch" then "Network error. Please check your connection."
  else if includes message "No word received" then "Invalid response from word service."
  else "Failed to fetch new word.".

Definition double_quote : string := String (ascii_of_nat 34) EmptyString.

(** The warning FallbackListBoard sends. *)
Definition offlineAlert (message randomFallback : string) : alert :=
  mkAlert (Some "Using Offline Mode")
    ("Couldn't fetch a random word from the API (" ++ message ++ "), using "
       ++ double_quote ++ randomFallback ++ double_quote
       ++ " instead. Check console for details.")%string
    None (Some "warning").

(** [FALLBACK_WORDS[Math.floor(Math.random() * FALLBACK_WORDS.length)]]; an
    index past the end, which [Math.random() < 1] excludes, reads
    [undefined], a falsy value, given here as the empty string. *)
Definition randomFallback (r : random) : string :=
  nth (floor_scaled r (length FALLBACK_WORDS)) FALLBACK_WORDS EmptyString.

(** The catch block of [fetchNewWord]. *)
Definition catchAcquire (v : variant) (message : string) (r : random) (s : state)
  : state * list alert :=
  match v with
  | ExtensionsBoard =>
      (setTargetWord "REACT" s,
       [mkAlert None (userMessage message) (Some "error") None])
  | NoFallbackBoard =>
      (s, [mkAlert (Some "Error") (userMessage message) None (Some "error")])
  | ReactFallbackBoard =>
      (setTargetWord "REACT" s,
       [mkAlert (Some "Error") (userMessage message) None (Some "error")])
  | FallbackListBoard =>
      (setTargetWord (randomFallback r) s, [offlineAlert message (randomFallback r)])
  end.

(** [fetchNewWord] up to its await: [setIsLoading(true)], then the request
    is issued. *)
Definition fetchNewWord_start (s : state) : state := setIsLoading true s.

(** [fetchNewWord] from the settled request on: the try block, the catch
    block when it throws, and [finally { setIsLoading(false) }]. *)
Definition fetchNewWord_resume (v : variant) (o : fetch_outcome) (r : random)
    (s : state) : state * list alert :=
  let (s1, alerts) :=
    match tryAcquire v o with
    | inr upperWord => (setTargetWord upperWord s, [])
    | inl message => catchAcquire v message r s
    end in
  (setIsLoading false s1, alerts).

(** The Round Status of the specification (section 3), derived from the
    cells: Won once a guess matched, Lost when five guesses are recorded
    without a match. *)
Inductive round_status := InProgress | Won | Lost.

Definition roundStatus (s : state) : round_status :=
  if isGameOver s then Won
  else if 5 <=? length (guesses s) then Lost
  else InProgress.

(** An uppercase alphabetic character, and a well-formed secret word. *)
Definition is_upper_alpha (c : ascii) : bool :=
  let n := nat_of_ascii c in (65 <=? n) && (n <=? 90).

Definition well_formed_word (w : string) : bool :=
  (String.length w =? 5) && forallb is_upper_alpha (list_ascii_of_string w).

End GameBoard.

(** ** The mounted component: requests in flight and events *)

Module Runtime.
Import Js Provider GameBoard.

(** The component together with the requests [fetchNewWord] has issued and
    that have not settled.  A request is named by its rank among the calls
    of [fetchNewWord]; the names exist in the model only, the code keeps no
    such counter. *)
Record world := mkWorld {
  ui : state;
  inflight : list nat;
  issued : nat
}.

(** A call of [fetchNewWord]: its synchronous part and a new request. *)
Definition fetchNewWord (w : world) : world :=
  mkWorld (fetchNewWord_start (ui w)) (inflight w ++ [issued w]) (S (issued w)).

(** The first render followed by [useEffect(() => { fetchNewWord(); }, [])]. *)
Definition mount (v : variant) : world :=
  fetchNewWord (mkWorld (initial v) [] 0).

(** [resetGame]. *)
Definition resetGame (w : world) : world :=
  fetchNewWord
    (mkWorld (setIsGameOver false (setCurrentGuess EmptyString (setGuesses [] (ui w))))
             (inflight w) (issued w)).

Inductive event :=
| Typed (text : string)
| SubmitGuess
| Reset
| Settle (id : nat) (o : fetch_outcome) (r : random).

Definition is_inflight (id : nat) (w : world) : bool :=
  existsb (Nat.eqb id) (inflight w).

(** The handler an event runs. *)
Definition step (v : variant) (w : world) (e : event) : world * list alert :=
  match e with
  | Typed text => (mkWorld (setCurrentGuess text (ui w)) (inflight w) (issued w), [])
  | SubmitGuess =>
      let (s, alerts) := handleSubmitGuess v (ui w) in
      (mkWorld s (inflight w) (issued w), alerts)
  | Reset => (resetGame w, [])
  | Settle id o r =>
      if is_inflight id w then
        let (s, alerts) := fetchNewWord_resume v o r (ui w) in
        (mkWorld s (filter (fun x => negb (Nat.eqb id x)) (inflight w)) (issued w), alerts)
      else (w, [])
  end.

Fixpoint run (v : variant) (w : world) (es : list event) : world :=
  match es with
  | [] => w
  | e :: es' => run v (fst (step v w e)) es'
  end.

(** What the environment may deliver: [Math.random()] is in [0, 1). *)
Definition admissible (e : event) : Prop :=
  match e with
  | Settle _ _ r => in_unit_interval r
  | _ => True
  end.

(** The states the handlers can produce, in any order of calls. *)
Inductive reachable (v : variant) : world -> Prop :=
| reachable_mount : reachable v (mount v)
| reachable_step : forall w e,
    reachable v w -> admissible e -> reachable v (fst (step v w e)).

(** *** What the rendered controls let through *)

(** [readOnly] of the input. *)
Definition inputReadOnly (v : variant) (s : state) : bool :=
  if waitsForWord v then gameEnded s || negb (gameReady s) else gameEnded s.

(** The Guess button is rendered when the game has not ended; the boards
    that wait for a word disable it with [!gameReady || isLoading]. *)
Definition guessEnabled (v : variant) (s : state) : bool :=
  negb (gameEnded s) &&
  (if waitsForWord v then negb (negb (gameReady s) || isLoading s) else true).

(** The Reset button is rendered when the game has ended, with
    [disabled={isLoading}]. *)
Definition resetEnabled (s : state) : bool :=
  gameEnded s && negb (isLoading s).

Definition enabled (v : variant) (w : world) (e : event) : bool :=
  match e with
  | Typed _ => negb (inputReadOnly v (ui w))
  | SubmitGuess => guessEnabled v (ui w)
  | Reset => resetEnabled (ui w)
  | Settle id _ _ => is_inflight id w
  end.

(** The states a user can reach through the rendered controls. *)
Inductive ui_reachable (v : variant) : world -> Prop :=
| ui_reachable_mount : ui_reachable v (mount v)
| ui_reachable_step : forall w e,
    ui_reachable v w -> admissible e -> enabled v w e = true ->
    ui_reachable v (fst (step v w e)).

End Runtime.

(** ** Concrete rounds used to exercise the model *)

Module Scenarios.
Import Js Provider GameBoard Runtime.

(** A response with status 200 whose body is [{ word }]. *)
Definition served (word : string) : fetch_outcome :=
  FetchResponse 200 "OK" (JsonParsed (mkBody (Some word) None None)).

(** The rejection of a request that could not reach the service. *)
Definition network_failure : fetch_outcome := FetchRejected "Failed to fetch".

Definition half : random := mkRandom 1 2.

(** FallbackListBoard right after mounting, four characters typed. *)
Definition before_word_loads : world :=
  run FallbackListBoard (mount FallbackListBoard) [Typed "ABCD"].

(** Five guesses that miss REACT. *)
Definition five_misses : list event :=
  [ Typed "stack"; SubmitGuess; Typed "trace"; SubmitGuess; Typed "crate"; SubmitGuess;
    Typed "caret"; SubmitGuess; Typed "cater"; SubmitGuess ].

(** ExtensionsBoard with the word REACT served and five misses recorded. *)
Definition lost_round : world :=
  run ExtensionsBoard (mount ExtensionsBoard)
      (Settle 0 (served "react") half :: five_misses).

(** The same round with four characters in the input. *)
Definition lost_round_short_input : world :=
  run ExtensionsBoard lost_round [Typed "ABCD"].

(** FallbackListBoard whose first request fails while [Math.random()]
    returns 9/16 = 0.5625. *)
Definition offline_round : world :=
  run FallbackListBoard (mount FallbackListBoard)
      [Settle 0 network_failure (mkRandom 9 16)].

(** NoFallbackBoard whose first request fails. *)
Definition failed_first_load : world * list alert :=
  step NoFallbackBoard (mount NoFallbackBoard) (Settle 0 network_failure half).

(** ExtensionsBoard won against its initial word REACT while the request
    of the mount is still in flight. *)
Definition won_while_loading : world :=
  run ExtensionsBoard (mount ExtensionsBoard) [Typed "react"; SubmitGuess].

(** [resetGame] called while the request of the mount is in flight; the
    request of the new round settles first, the older one after it. *)
Definition reset_during_fetch : list event :=
  [ Reset; Settle 1 (served "world") half; Settle 0 (served "apple") half ].

End Scenarios.

(** ** The earlier card *)

Module LegacyCard.
Import Js Provider GameBoard.

(** [getRandomWord] of the card quoted at the end of README.md, from the
    settled request on: the same checks as the card under src/app/cards,
    but its catch block calls [sendAlert] before it throws the error again.
    The result is the value returned or the error thrown, with the alerts
    sent. *)
Definition legacyGetRandomWord (o : fetch_outcome) : (exn + json_body) * list alert :=
  let attempt : exn + json_body :=
    match o with
    | FetchRejected message => inl message
    | FetchResponse status statusText body =>
        if negb (response_ok status)
        then inl ("HTTP error! status: " ++ string_of_nat status ++ " " ++ statusText)%string
        else match body with
             | JsonRejected message => inl message
             | JsonParsed data =>
                 if negb (truthy (j_word data))
                 then inl "Invalid response: missing word property"%string
                 else inr data
             end
    end in
  match attempt with
  | inl message =>
      (inl message,
       [mkAlert None ("Failed to get random word: " ++ message)%string (Some "danger") None])
  | inr data => (inr data, [])
  end.

(** The try block of [fetchNewWord] in the boards that receive
    [getRandomWord], from the settled call on. *)
Definition tryWith (result : exn + json_body) : exn + string :=
  match result with
  | inl error => inl error
  | inr data =>
      let word := j_word data in
      if negb (truthy word) then inl "No word received from server"%string
      else inr (toUpperCase (text_of word))
  end.

(** [fetchNewWord] of such a board mounted in the earlier card, from the
    settled request on: the alerts of the card precede those of the board. *)
Definition fetchNewWord_resume_legacy (v : variant) (o : fetch_outcome) (r : random)
    (s : state) : state * list alert :=
  let (result, cardAlerts) := legacyGetRandomWord o in
  let (s1, alerts) :=
    match tryWith result with
    | inr upperWord => (setTargetWord upperWord s, [])
    | inl message => catchAcquire v message r s
    end in
  (setIsLoading false s1, cardAlerts ++ alerts).

End LegacyCard.

(** ** What the board renders *)

Module View.
Import Js GameBoard.

(** The JSX a board returns, as the properties it passes down: the Input,
    the one Button that is rendered (Reset when the game has ended, Guess
    otherwise) and one GuessRow per recorded guess. *)
Record view := mkView {
  input_value : string;
  input_placeholder : string;
  input_readOnly : bool;
  button_resets : bool;
  button_disabled : bool;
  button_label : string;
  rows : list (string * string)
}.

(** The GuessRow elements: [guesses.map(guess => <GuessRow guess={guess}
    targetWord={targetWord} />)], which the boards that wait for a word
    render only under [targetWord && (...)]. *)
Definition renderedRows (v : variant) (s : state) : list (string * string) :=
  let all := map (fun guess => (guess, targetWord s)) (guesses s) in
  if waitsForWord v then (if truthy_string (targetWord s) then all else []) else all.

Definition render (v : variant) (s : state) : view :=
  if waitsForWord v then
    mkView (currentGuess s)
           (if gameReady s then "Enter 5-letter word" else "Loading word...")
           (gameEnded s || negb (gameReady s))
           (gameEnded s)
           (if gameEnded s then isLoading s else negb (gameReady s) || isLoading s)
           (if gameEnded s
            then (if isLoading s then "Loading..." else "Reset Game")
            else (if isLoading s then "Loading..." else "Guess"))
           (renderedRows v s)
  else
    mkView (currentGuess s)
           "Enter 5-letter word"
           (gameEnded s)
           (gameEnded s)
           (if gameEnded s then isLoading s else false)
           (if gameEnded s
            then (if isLoading s then "Loading..." else "Reset Game")
            else "Guess")
           (renderedRows v s).

End View.

Import Js Evaluator Provider GameBoard Runtime Scenarios.
Import LegacyCard.
Import View.

(** * Properties *)

(** ** The evaluator *)

Section EvaluatorFacts.

Implicit Types (guess secret : list ascii) (marks : list bool) (avail : counts).

Lemma exact_match_tail : forall g guess secret i,
  exact_match (g :: guess) secret (S i) = exact_match guess (tl secret) i.
Proof.
  intros g guess [|s secret] i; unfold exact_match; simpl.
  - destruct (nth_error guess i); destruct i; reflexivity.
  - reflexivity.
Qed.

Lemma exact_hits_nil : forall guess c, exact_hits guess [] c = 0.
Proof. intros [|g guess] c; reflexivity. Qed.

Lemma exact_hits_unmatched : forall g guess secret c,
  exact_match (g :: guess) secret 0 = false ->
  exact_hits (g :: guess) secret c = exact_hits guess (tl secret) c.
Proof.
  intros g guess [|s secret] c H; simpl.
  - now rewrite exact_hits_nil.
  - unfold exact_match in H; simpl in H. now rewrite H.
Qed.

Lemma exact_hits_matched : forall g guess secret c,
  exact_match (g :: guess) secret 0 = true ->
  exact_hits (g :: guess) secret c
  = (if Ascii.eqb g c then 1 else 0) + exact_hits guess (tl secret) c.
Proof.
  intros g guess [|s secret] c H; unfold exact_match in H; simpl in H.
  - discriminate.
  - simpl. now rewrite H.
Qed.

(** The exact matches of a letter are occurrences of it in the secret. *)
Lemma exact_hits_le_count : forall guess secret c,
  exact_hits guess secret c <= count_occ ascii_dec secret c.
Proof.
  induction guess as [|g guess IH]; intros [|s secret] c; simpl; try lia.
  specialize (IH secret c).
  destruct (Ascii.eqb_spec g s) as [->|Hgs]; simpl.
  - destruct (Ascii.eqb_spec s c) as [->|Hsc].
    + destruct (ascii_dec c c); [lia | congruence].
    + destruct (ascii_dec s c); lia.
  - destruct (ascii_dec s c); lia.
Qed.

Lemma first_pass_length : forall guess secret avail,
  length (fst (first_pass guess secret avail)) = length guess.
Proof.
  induction guess as [|g guess IH]; intros secret avail; simpl; [reflexivity|].
  destruct secret as [|s secret].
  - specialize (IH [] avail). destruct (first_pass guess [] avail). simpl in *. lia.
  - destruct (Ascii.eqb g s).
    + specialize (IH secret (decrement g avail)).
      destruct (first_pass guess secret (decrement g avail)). simpl in *. lia.
    + specialize (IH secret avail).
      destruct (first_pass guess secret avail). simpl in *. lia.
Qed.

(** The marks of the first pass are the exact matches. *)
Lemma first_pass_marks : forall guess secret avail i,
  i < length guess ->
  nth_error (fst (first_pass guess secret avail)) i = Some (exact_match guess secret i).
Proof.
  induction guess as [|g guess IH]; intros secret avail i Hi; simpl in Hi; [lia|].
  destruct i as [|i].
  - simpl. destruct secret as [|s secret].
    + destruct (first_pass guess [] avail). reflexivity.
    + unfold exact_match; simpl. destruct (Ascii.eqb g s).
      * destruct (first_pass guess secret (decrement g avail)). reflexivity.
      * destruct (first_pass guess secret avail). reflexivity.
  - rewrite exact_match_tail. simpl. destruct secret as [|s secret].
    + specialize (IH [] avail i). destruct (first_pass guess [] avail).
      simpl in *. apply IH. lia.
    + destruct (Ascii.eqb g s).
      * specialize (IH secret (decrement g avail) i).
        destruct (first_pass guess secret (decrement g avail)). simpl in *. apply IH. lia.
      * specialize (IH secret avail i).
        destruct (first_pass guess secret avail). simpl in *. apply IH. lia.
Qed.

(** After the first pass a letter has lost one occurrence per exact match. *)
Lemma first_pass_avail : forall guess secret avail c,
  snd (first_pass guess secret avail) c = avail c - exact_hits guess secret c.
Proof.
  induction guess as [|g guess IH]; intros secret avail c; simpl; [lia|].
  destruct secret as [|s secret].
  - specialize (IH [] avail c). rewrite exact_hits_nil in IH.
    destruct (first_pass guess [] avail). simpl in *. lia.
  - destruct (Ascii.eqb_spec g s) as [->|Hgs]; simpl.
    + specialize (IH secret (decrement s avail) c).
      destruct (first_pass guess secret (decrement s avail)). simpl in *.
      rewrite IH. unfold decrement. rewrite (Ascii.eqb_sym s c).
      destruct (Ascii.eqb c s); lia.
    + specialize (IH secret avail c).
      destruct (first_pass guess secret avail). simpl in *. lia.
Qed.

Lemma second_pass_length : forall guess marks avail,
  length marks = length guess ->
  length (second_pass guess marks avail) = length guess.
Proof.
  induction guess as [|g guess IH]; intros [|b marks] avail H; simpl in *;
    try reflexivity; try discriminate.
  destruct b; [|destruct (0 <? avail g)]; simpl; rewrite IH; lia.
Qed.

(** The second pass, position by position, when the marks are the exact
    matches against [secret]. *)
Lemma second_pass_rule : forall guess secret marks avail i c,
  length marks = length guess ->
  (forall j, j < length guess -> nth_error marks j = Some (exact_match guess secret j)) ->
  nth_error guess i = Some c ->
  nth_error (second_pass guess marks avail) i
  = Some (if exact_match guess secret i then Correct
          else if misses_before i guess secret c <? avail c then Present
          else Absent).
Proof.
  induction guess as [|g guess IH]; intros secret marks avail i c Hlen Hmarks Hc.
  - destruct i; discriminate.
  - destruct marks as [|b marks]; [discriminate|].
    assert (Hb : b = exact_match (g :: guess) secret 0).
    { specialize (Hmarks 0). simpl in Hmarks. 
      assert (Some b = Some (exact_match (g :: guess) secret 0)) by (apply Hmarks; lia).
      congruence. }
    assert (Htail : forall j, j < length guess ->
              nth_error marks j = Some (exact_match guess (tl secret) j)).
    { intros j Hj. rewrite <- exact_match_tail with (g := g).
      apply (Hmarks (S j)). simpl. lia. }
    assert (Hlen' : length marks = length guess) by (simpl in Hlen; lia).
    destruct i as [|i].
    + simpl in Hc. injection Hc as ->. simpl. rewrite <- Hb.
      destruct b; [reflexivity|]. destruct (0 <? avail c); reflexivity.
    + simpl in Hc. rewrite exact_match_tail.
      cbn [misses_before]. rewrite <- Hb. simpl second_pass.
      destruct b; simpl negb; cbn [andb].
      * simpl. now apply IH.
      * destruct (0 <? avail g) eqn:Hpos; simpl nth_error;
          rewrite (IH (tl secret) marks _ i c Hlen' Htail Hc);
          destruct (exact_match guess (tl secret) i); try reflexivity.
        -- unfold decrement. rewrite (Ascii.eqb_sym c g).
           destruct (Ascii.eqb_spec g c) as [->|Hgc].
           ++ apply Nat.ltb_lt in Hpos.
              destruct (misses_before i guess (tl secret) c <? avail c - 1) eqn:E1;
              destruct (1 + misses_before i guess (tl secret) c <? avail c) eqn:E2;
              try reflexivity;
              [apply Nat.ltb_lt in E1; apply Nat.ltb_ge in E2
              |apply Nat.ltb_ge in E1; apply Nat.ltb_lt in E2]; lia.
           ++ reflexivity.
        -- destruct (Ascii.eqb_spec g c) as [->|Hgc]; [|reflexivity].
           apply Nat.ltb_ge in Hpos. assert (avail c = 0) as -> by lia.
           reflexivity.
Qed.

(** The positions of a letter that the second pass leaves Correct or
    Present number at most its exact matches plus its available count. *)
Lemma second_pass_claimed : forall guess secret marks avail c,
  length marks = length guess ->
  (forall j, j < length guess -> nth_error marks j = Some (exact_match guess secret j)) ->
  claimed guess (second_pass guess marks avail) c
  <= exact_hits guess secret c + avail c.
Proof.
  induction guess as [|g guess IH]; intros secret marks avail c Hlen Hmarks.
  - simpl. lia.
  - destruct marks as [|b marks]; [discriminate|].
    assert (Hb : b = exact_match (g :: guess) secret 0).
    { assert (Some b = Some (exact_match (g :: guess) secret 0))
        by (apply (Hmarks 0); simpl; lia).
      congruence. }
    assert (Htail : forall j, j < length guess ->
              nth_error marks j = Some (exact_match guess (tl secret) j)).
    { intros j Hj. rewrite <- exact_match_tail with (g := g).
      apply (Hmarks (S j)). simpl. lia. }
    assert (Hlen' : length marks = length guess) by (simpl in Hlen; lia).
    simpl second_pass. destruct b.
    + rewrite (exact_hits_matched _ _ _ _ (eq_sym Hb)). cbn [claimed is_absent negb].
      specialize (IH (tl secret) marks avail c Hlen' Htail).
      rewrite andb_true_r. lia.
    + rewrite (exact_hits_unmatched _ _ _ _ (eq_sym Hb)).
      destruct (0 <? avail g) eqn:Hpos; cbn [claimed is_absent negb].
      * specialize (IH (tl secret) marks (decrement g avail) c Hlen' Htail).
        rewrite andb_true_r.
        assert (Hd : decrement g avail c = if Ascii.eqb g c then avail c - 1 else avail c)
          by (unfold decrement; now rewrite (Ascii.eqb_sym c g)).
        rewrite Hd in IH. apply Nat.ltb_lt in Hpos.
        destruct (Ascii.eqb_spec g c) as [->|Hgc]; lia.
      * specialize (IH (tl secret) marks avail c Hlen' Htail).
        rewrite andb_false_r. lia.
Qed.

Lemma claimed_one : forall guess result j c r,
  nth_error guess j = Some c -> nth_error result j = Some r ->
  is_absent r = false -> 1 <= claimed guess result c.
Proof.
  induction guess as [|g guess IH]; intros result j c r Hg Hr Hna.
  - destruct j; discriminate.
  - destruct result as [|r0 result]; [destruct j; discriminate|].
    destruct j as [|j]; simpl in *.
    + injection Hg as ->. injection Hr as ->. rewrite Ascii.eqb_refl, Hna. simpl. lia.
    + specialize (IH result j c r Hg Hr Hna). lia.
Qed.

Lemma claimed_two : forall guess result i j c ri rj,
  i < j ->
  nth_error guess i = Some c -> nth_error guess j = Some c ->
  nth_error result i = Some ri -> nth_error result j = Some rj ->
  is_absent ri = false -> is_absent rj = false ->
  2 <= claimed guess result c.
Proof.
  induction guess as [|g guess IH]; intros result i j c ri rj Hij Hgi Hgj Hri Hrj Hi Hj.
  - destruct i; discriminate.
  - destruct result as [|r0 result]; [destruct i; discriminate|].
    destruct j as [|j]; [lia|].
    destruct i as [|i]; simpl in *.
    + injection Hgi as ->. injection Hri as ->. rewrite Ascii.eqb_refl, Hi. simpl.
      pose proof (claimed_one guess result j c rj Hgj Hrj Hj). lia.
    + assert (i < j) by lia.
      specialize (IH result i j c ri rj H Hgi Hgj Hri Hrj Hi Hj). lia.
Qed.

End EvaluatorFacts.

Lemma length_chars : forall w : string,
  length (list_ascii_of_string w) = String.length w.
Proof. induction w as [|c w IH]; simpl; congruence. Qed.

(** The evaluation is the second pass run on the exact-match marks, with
    the counts the first pass leaves. *)
Lemma evaluate_unfold : forall guess secret : string,
  let g := list_ascii_of_string guess in
  let s := list_ascii_of_string secret in
  evaluate guess secret
  = second_pass g (fst (first_pass g s (multiset_of s)))
                  (snd (first_pass g s (multiset_of s))).
Proof.
  intros guess secret g s. unfold evaluate. fold g s.
  destruct (first_pass g s (multiset_of s)); reflexivity.
Qed.

Lemma evaluate_length : forall guess secret : string,
  length (evaluate guess secret) = String.length guess.
Proof.
  intros guess secret. rewrite evaluate_unfold. cbv zeta.
  rewrite second_pass_length; [apply length_chars | apply first_pass_length].
Qed.

Lemma evaluate_rule : forall (guess secret : string) (i : nat),
  nth_error (evaluate guess secret) i
  = rule_at (list_ascii_of_string guess) (list_ascii_of_string secret) i.
Proof.
  intros guess secret i. unfold rule_at.
  destruct (nth_error (list_ascii_of_string guess) i) as [c|] eqn:Hc.
  - rewrite evaluate_unfold. cbv zeta.
    rewrite (second_pass_rule _ (list_ascii_of_string secret) _ _ i c).
    + rewrite first_pass_avail. unfold multiset_of.
      destruct (exact_match _ _ i); [reflexivity|].
      destruct (_ <? _); reflexivity.
    + apply first_pass_length.
    + intros j Hj. now apply first_pass_marks.
    + exact Hc.
  - apply nth_error_None. rewrite evaluate_length, <- length_chars.
    now apply nth_error_None.
Qed.

Lemma evaluate_claimed : forall (guess secret : string) (L : ascii),
  claimed (list_ascii_of_string guess) (evaluate guess secret) L
  <= count_occ ascii_dec (list_ascii_of_string secret) L.
Proof.
  intros guess secret L. rewrite evaluate_unfold. cbv zeta.
  set (g := list_ascii_of_string guess). set (s := list_ascii_of_string secret).
  pose proof (second_pass_claimed g s (fst (first_pass g s (multiset_of s)))
                (snd (first_pass g s (multiset_of s))) L
                (first_pass_length g s _)
                (fun j Hj => first_pass_marks g s _ j Hj)) as H.
  rewrite first_pass_avail in H.
  change (multiset_of s L) with (count_occ ascii_dec s L) in H.
  pose proof (exact_hits_le_count g s L). lia.
Qed.

(** C1: for 5-character strings [guess] and [secret], [evaluate] returns
    exactly 5 classifications, and the classification of every position is
    the one the two-pass rule gives: Correct where the guess and the secret
    hold the same letter; elsewhere Present when the letter still has an
    occurrence in the secret's multiset that neither an exact match nor an
    earlier unmatched position of the guess has claimed, and Absent
    otherwise. *)
Theorem evaluate_two_pass_rule : forall guess secret : string,
  String.length guess = 5 -> String.length secret = 5 ->
  length (evaluate guess secret) = 5 /\
  forall i, i < 5 ->
    exists r,
      nth_error (evaluate guess secret) i = Some r /\
      rule_at (list_ascii_of_string guess) (list_ascii_of_string secret) i = Some r /\
      (r = Correct <-> letter_at guess i = letter_at secret i) /\
      (r = Present <->
         letter_at guess i <> letter_at secret i /\
         exists g, letter_at guess i = Some g /\
           misses_before i (list_ascii_of_string guess) (list_ascii_of_string secret) g
           < count_occ ascii_dec (list_ascii_of_string secret) g
             - exact_hits (list_ascii_of_string guess) (list_ascii_of_string secret) g).
Proof.
  intros guess secret Hg Hs. split.
  - now rewrite evaluate_length.
  - intros i Hi.
    assert (Hgi : exists g, letter_at guess i = Some g).
    { unfold letter_at. destruct (nth_error (list_ascii_of_string guess) i) eqn:E; eauto.
      apply nth_error_None in E. rewrite length_chars in E. lia. }
    assert (Hsi : exists s, letter_at secret i = Some s).
    { unfold letter_at. destruct (nth_error (list_ascii_of_string secret) i) eqn:E; eauto.
      apply nth_error_None in E. rewrite length_chars in E. lia. }
    destruct Hgi as [g Hgi], Hsi as [s Hsi]. unfold letter_at in *.
    rewrite evaluate_rule. unfold rule_at, exact_match. rewrite Hgi, Hsi.
    destruct (Ascii.eqb_spec g s) as [->|Hne].
    + exists Correct. repeat split; try discriminate; try congruence.
      intros [Hc _]. congruence.
    + set (m := misses_before i (list_ascii_of_string guess) (list_ascii_of_string secret) g).
      set (a := count_occ ascii_dec (list_ascii_of_string secret) g
                - exact_hits (list_ascii_of_string guess) (list_ascii_of_string secret) g).
      destruct (m <? a) eqn:E.
      * exists Present. apply Nat.ltb_lt in E. repeat split; try discriminate; try congruence.
        exists g. split; [reflexivity|exact E].
      * exists Absent. apply Nat.ltb_ge in E. repeat split; try discriminate; try congruence.
        intros [_ [g' [Hg' Hlt]]]. injection Hg' as <-. fold m a in Hlt. lia.
Qed.

Lemma evaluate_two_pass_rule_witness :
  length (evaluate "ERASE" "SPEED") = 5 /\
  evaluate "ERASE" "SPEED" = [Present; Absent; Absent; Present; Present].
Proof.
  split.
  - exact (proj1 (evaluate_two_pass_rule "ERASE" "SPEED" eq_refl eq_refl)).
  - reflexivity.
Defined.

(** C2: for a 5-character guess and a 5-character secret S, the positions
    of the guess that hold a letter L and are classified Correct or Present
    number at most the occurrences of L in S; in particular, when S holds L
    once, of two positions of the guess that hold L at least one is
    classified Absent. *)
Theorem evaluate_claims_within_secret : forall (guess secret : string) (L : ascii),
  String.length guess = 5 -> String.length secret = 5 ->
  claimed (list_ascii_of_string guess) (evaluate guess secret) L
  <= count_occ ascii_dec (list_ascii_of_string secret) L
  /\
  (count_occ ascii_dec (list_ascii_of_string secret) L = 1 ->
   forall i j, i <> j ->
     letter_at guess i = Some L -> letter_at guess j = Some L ->
     nth_error (evaluate guess secret) i = Some Absent \/
     nth_error (evaluate guess secret) j = Some Absent).
Proof.
  intros guess secret L _ _. split; [apply evaluate_claimed|].
  intros Hone i j Hij Hi Hj. unfold letter_at in *.
  pose proof (evaluate_claimed guess secret L) as Hle. rewrite Hone in Hle.
  assert (Hri : exists ri, nth_error (evaluate guess secret) i = Some ri).
  { destruct (nth_error (evaluate guess secret) i) eqn:E; eauto.
    apply nth_error_None in E. rewrite evaluate_length, <- length_chars in E.
    apply nth_error_None in E. congruence. }
  assert (Hrj : exists rj, nth_error (evaluate guess secret) j = Some rj).
  { destruct (nth_error (evaluate guess secret) j) eqn:E; eauto.
    apply nth_error_None in E. rewrite evaluate_length, <- length_chars in E.
    apply nth_error_None in E. congruence. }
  destruct Hri as [ri Hri], Hrj as [rj Hrj]. rewrite Hri, Hrj.
  destruct (is_absent ri) eqn:Ei; [left; destruct ri; try discriminate; reflexivity|].
  destruct (is_absent rj) eqn:Ej; [right; destruct rj; try discriminate; reflexivity|].
  exfalso.
  destruct (Nat.lt_total i j) as [Hlt|[Heq|Hgt]]; [|contradiction|].
  - pose proof (claimed_two _ _ i j L ri rj Hlt Hi Hj Hri Hrj Ei Ej). lia.
  - pose proof (claimed_two _ _ j i L rj ri Hgt Hj Hi Hrj Hri Ej Ei). lia.
Qed.

Lemma evaluate_claims_within_secret_witness :
  claimed (list_ascii_of_string "EVENT") (evaluate "EVENT" "REACT") "E" <= 1 /\
  (nth_error (evaluate "EVENT" "REACT") 0 = Some Absent \/
   nth_error (evaluate "EVENT" "REACT") 2 = Some Absent).
Proof.
  pose proof (evaluate_claims_within_secret "EVENT" "REACT" "E" eq_refl eq_refl) as [H1 H2].
  split.
  - exact H1.
  - apply (H2 eq_refl 0 2); [discriminate | reflexivity | reflexivity].
Defined.

(** ** The game board: submitting a guess *)

Section SubmitFacts.

Variable v : variant.

Lemma toUpperCase_length : forall s : string,
  String.length (toUpperCase s) = String.length s.
Proof. induction s as [|c s IH]; simpl; congruence. Qed.

(** The three refusals of [handleSubmitGuess], in the order of the code. *)
Lemma submit_not_ready : forall s,
  waitsForWord v = true -> truthy_string (targetWord s) = false ->
  handleSubmitGuess v s = (s, [notReadyAlert]).
Proof. intros s Hw Ht. unfold handleSubmitGuess. now rewrite Hw, Ht. Qed.

Lemma submit_wrong_length : forall s,
  (waitsForWord v = true -> truthy_string (targetWord s) = true) ->
  String.length (currentGuess s) <> 5 ->
  handleSubmitGuess v s = (s, [invalidGuessAlert v]).
Proof.
  intros s Hw Hlen. unfold handleSubmitGuess.
  apply Nat.eqb_neq in Hlen.
  destruct (waitsForWord v); [rewrite (Hw eq_refl)|]; cbn [andb negb];
    now rewrite Hlen.
Qed.

Lemma submit_history_full : forall s,
  (waitsForWord v = true -> truthy_string (targetWord s) = true) ->
  String.length (currentGuess s) = 5 ->
  5 <= length (guesses s) ->
  handleSubmitGuess v s = (s, [gameOverAlert v]).
Proof.
  intros s Hw Hlen Hfull. unfold handleSubmitGuess.
  apply Nat.eqb_eq in Hlen. apply Nat.leb_le in Hfull.
  destruct (waitsForWord v); [rewrite (Hw eq_refl)|]; cbn [andb negb];
    rewrite Hlen; cbn [negb]; now rewrite Hfull.
Qed.

(** An accepted guess. *)
Lemma submit_accepted : forall s,
  (waitsForWord v = true -> truthy_string (targetWord s) = true) ->
  String.length (currentGuess s) = 5 ->
  length (guesses s) < 5 ->
  handleSubmitGuess v s
  = let upperGuess := toUpperCase (currentGuess s) in
    let s1 := setCurrentGuess EmptyString (setGuesses (guesses s ++ [upperGuess]) s) in
    if String.eqb upperGuess (targetWord s)
    then (setIsGameOver true s1, [wonAlert v])
    else (s1, []).
Proof.
  intros s Hw Hlen Hroom. unfold handleSubmitGuess.
  apply Nat.eqb_eq in Hlen. apply Nat.leb_gt in Hroom.
  destruct (waitsForWord v); [rewrite (Hw eq_refl)|]; cbn [andb negb];
    rewrite Hlen; cbn [negb]; now rewrite Hroom.
Qed.

(** Every refusal leaves the cells as they are; an accepted guess appends. *)
Lemma submit_guesses : forall s,
  guesses (fst (handleSubmitGuess v s)) = guesses s \/
  (guesses (fst (handleSubmitGuess v s)) = guesses s ++ [toUpperCase (currentGuess s)]
   /\ length (guesses s) < 5
   /\ (waitsForWord v = true -> truthy_string (targetWord s) = true)).
Proof.
  intros s. unfold handleSubmitGuess.
  destruct (waitsForWord v && negb (truthy_string (targetWord s))) eqn:Hw; [now left|].
  destruct (negb (String.length (currentGuess s) =? 5)); [now left|].
  destruct (5 <=? length (guesses s)) eqn:Hfull; [now left|].
  right. apply Nat.leb_gt in Hfull.
  assert (Hword : waitsForWord v = true -> truthy_string (targetWord s) = true).
  { intros E. rewrite E in Hw. simpl in Hw. now apply negb_false_iff in Hw. }
  destruct (String.eqb _ _); simpl; auto.
Qed.

Lemma submit_targetWord : forall s,
  targetWord (fst (handleSubmitGuess v s)) = targetWord s.
Proof.
  intros s. unfold handleSubmitGuess.
  repeat match goal with |- context [if ?b then _ else _] => destruct b end; reflexivity.
Qed.

Lemma submit_isLoading : forall s,
  isLoading (fst (handleSubmitGuess v s)) = isLoading s.
Proof.
  intros s. unfold handleSubmitGuess.
  repeat match goal with |- context [if ?b then _ else _] => destruct b end; reflexivity.
Qed.

(** [handleSubmitGuess] never clears the game-over flag: Won is kept. *)
Lemma submit_keeps_won : forall s,
  roundStatus s = Won -> roundStatus (fst (handleSubmitGuess v s)) = Won.
Proof.
  intros s Hwon. unfold roundStatus in *.
  destruct (isGameOver s) eqn:Hover.
  - assert (Hkept : isGameOver (fst (handleSubmitGuess v s)) = true).
    { unfold handleSubmitGuess.
      destruct (waitsForWord v && negb (truthy_string (targetWord s))); [exact Hover|].
      destruct (negb (String.length (currentGuess s) =? 5)); [exact Hover|].
      destruct (5 <=? length (guesses s)); [exact Hover|].
      destruct (String.eqb _ _); [reflexivity|exact Hover]. }
    now rewrite Hkept.
  - destruct (5 <=? length (guesses s)); discriminate.
Qed.

End SubmitFacts.

(** C3: in a round with a Secret Word set and fewer than 5 guesses
    recorded, submitting a 5-character input appends its uppercase form to
    the history.  If that form equals the Secret Word the Round Status
    becomes Won; Won is terminal: the Guess control is no longer offered,
    the input is read-only, and [handleSubmitGuess] keeps the status Won.
    If it differs and the round was in progress, the status is Lost when
    the history thereby holds 5 entries and InProgress otherwise.  From a
    round in progress, Won is reached exactly when the submitted guess
    equals the Secret Word. *)
Theorem submit_decides_round : forall (v : variant) (s : state),
  truthy_string (targetWord s) = true ->
  length (guesses s) < 5 ->
  String.length (currentGuess s) = 5 ->
  let upperGuess := toUpperCase (currentGuess s) in
  let s' := fst (handleSubmitGuess v s) in
  guesses s' = guesses s ++ [upperGuess] /\
  targetWord s' = targetWord s /\
  (upperGuess = targetWord s ->
     roundStatus s' = Won /\
     guessEnabled v s' = false /\ inputReadOnly v s' = true /\
     roundStatus (fst (handleSubmitGuess v s')) = Won) /\
  (roundStatus s = InProgress -> upperGuess <> targetWord s ->
     roundStatus s' = if length (guesses s') =? 5 then Lost else InProgress) /\
  (roundStatus s = InProgress ->
     (roundStatus s' = Won <-> upperGuess = targetWord s)).
Proof.
  intros v s Hword Hroom Hlen upperGuess s'.
  assert (Hs' : s' = fst (handleSubmitGuess v s)) by reflexivity.
  rewrite (submit_accepted v s (fun _ => Hword) Hlen Hroom) in Hs'.
  cbv zeta in Hs'. fold upperGuess in Hs'.
  assert (Hprogress : roundStatus s = InProgress -> isGameOver s = false).
  { unfold roundStatus. destruct (isGameOver s); [discriminate|reflexivity]. }
  destruct (String.eqb_spec upperGuess (targetWord s)) as [Heq|Hne]; simpl in Hs'.
  - assert (Hwon : roundStatus s' = Won) by (rewrite Hs'; reflexivity).
    split; [rewrite Hs'; reflexivity|].
    split; [rewrite Hs'; reflexivity|].
    split.
    { intros _. split; [exact Hwon|].
      split; [rewrite Hs'; reflexivity|].
      split; [|now apply submit_keeps_won].
      rewrite Hs'. unfold inputReadOnly, gameEnded. simpl. now destruct (waitsForWord v). }
    split; [intros _ Habs; contradiction|].
    intros _. split; [intros _; exact Heq | intros _; exact Hwon].
  - assert (Hstatus : roundStatus s = InProgress ->
              roundStatus s' = if length (guesses s') =? 5 then Lost else InProgress).
    { intros Hp. rewrite Hs'. unfold roundStatus.
      cbn [isGameOver guesses setCurrentGuess setGuesses].
      rewrite (Hprogress Hp), length_app. cbn [length].
      destruct (5 <=? length (guesses s) + 1) eqn:E';
        destruct (length (guesses s) + 1 =? 5) eqn:E; try reflexivity; exfalso;
        [apply Nat.leb_le in E'; apply Nat.eqb_neq in E
        |apply Nat.leb_gt in E'; apply Nat.eqb_eq in E]; lia. }
    split; [rewrite Hs'; reflexivity|].
    split; [rewrite Hs'; reflexivity|].
    split; [intros Habs; contradiction|].
    split; [intros Hp _; now apply Hstatus|].
    intros Hp. split; [|intros Habs; contradiction].
    intros Hw. rewrite (Hstatus Hp) in Hw.
    destruct (length (guesses s') =? 5); discriminate.
Qed.

Lemma submit_decides_round_witness :
  roundStatus (fst (handleSubmitGuess ExtensionsBoard
                      (mkState "react" ["STACK"; "TRACE"] "REACT" false false))) = Won
  /\ roundStatus (fst (handleSubmitGuess ExtensionsBoard
                         (mkState "world" ["STACK"; "TRACE"] "REACT" false false)))
     = InProgress.
Proof.
  pose proof (submit_decides_round ExtensionsBoard
                (mkState "react" ["STACK"; "TRACE"] "REACT" false false)
                eq_refl ltac:(simpl; lia) eq_refl) as Hmatch.
  pose proof (submit_decides_round ExtensionsBoard
                (mkState "world" ["STACK"; "TRACE"] "REACT" false false)
                eq_refl ltac:(simpl; lia) eq_refl) as Hdiffer.
  cbv zeta in Hmatch, Hdiffer.
  destruct Hmatch as (_ & _ & Hwon & _).
  destruct Hdiffer as (_ & _ & _ & Hcontinue & _).
  split.
  - apply Hwon. reflexivity.
  - apply Hcontinue; [reflexivity | discriminate].
Defined.

(** C4: for every raw input whose length is not 5, [handleSubmitGuess]
    leaves the whole round state unchanged (Guess History, Secret Word,
    Round Status and input alike) and fails with the validation error
    "Guess must be 5 letters!": whenever a Secret Word is set, in every
    state of the two boards that do not wait for a word, and on every call
    the rendered Guess control lets through.  (In the two boards that wait
    for a word, a round that is not ready yet, where the Guess control is
    disabled, is answered by the not-ready guard; the state is unchanged
    there too.) *)
Theorem wrong_length_rejected : forall (v : variant) (s : state),
  String.length (currentGuess s) <> 5 ->
  fst (handleSubmitGuess v s) = s /\
  roundStatus (fst (handleSubmitGuess v s)) = roundStatus s /\
  (waitsForWord v = false \/ truthy_string (targetWord s) = true ->
     snd (handleSubmitGuess v s) = [invalidGuessAlert v] /\
     alert_message (invalidGuessAlert v) = "Guess must be 5 letters!") /\
  (guessEnabled v s = true ->
     snd (handleSubmitGuess v s) = [invalidGuessAlert v]) /\
  (waitsForWord v = true -> truthy_string (targetWord s) = false ->
     snd (handleSubmitGuess v s) = [notReadyAlert]).
Proof.
  intros v s Hlen.
  assert (Hgate : guessEnabled v s = true ->
            waitsForWord v = true -> truthy_string (targetWord s) = true).
  { unfold guessEnabled, gameReady. intros Hen Hw. rewrite Hw in Hen.
    apply andb_prop in Hen as [_ Hen]. apply negb_true_iff, orb_false_elim in Hen.
    destruct Hen as [Hen _]. apply negb_false_iff, andb_prop in Hen. tauto. }
  destruct (waitsForWord v) eqn:Hw; destruct (truthy_string (targetWord s)) eqn:Ht.
  all: try (rewrite (submit_wrong_length v s) by (intros; congruence);
            simpl; repeat split; try congruence; destruct v; reflexivity).
  rewrite (submit_not_ready v s Hw Ht). simpl.
  split; [reflexivity|]. split; [reflexivity|].
  split; [intros [H|H]; discriminate|].
  split; [intros Hen; specialize (Hgate Hen eq_refl); discriminate | reflexivity].
Qed.

Lemma wrong_length_rejected_witness :
  handleSubmitGuess ExtensionsBoard (mkState "ABCD" ["STACK"] "REACT" false false)
  = (mkState "ABCD" ["STACK"] "REACT" false false,
     [mkAlert None "Guess must be 5 letters!" (Some "danger") None]).
Proof.
  pose proof (wrong_length_rejected ExtensionsBoard
                (mkState "ABCD" ["STACK"] "REACT" false false)
                ltac:(simpl; discriminate)) as (Hstate & _ & Halert & _ & _).
  destruct (Halert (or_introl eq_refl)) as [Hsent _].
  rewrite (surjective_pairing (handleSubmitGuess _ _)), Hstate, Hsent. reflexivity.
Defined.

(** Before the word has loaded FallbackListBoard has no round yet: the
    input is read-only and the Guess control disabled, and a call of the
    handler is answered by the not-ready guard. *)
Lemma not_ready_before_word_loads :
  inputReadOnly FallbackListBoard (ui (mount FallbackListBoard)) = true /\
  guessEnabled FallbackListBoard (ui before_word_loads) = false /\
  targetWord (ui before_word_loads) = EmptyString /\
  currentGuess (ui before_word_loads) = "ABCD" /\
  handleSubmitGuess FallbackListBoard (ui before_word_loads)
  = (ui before_word_loads,
     [mkAlert (Some "Game Not Ready") "Please wait for the word to load." None
              (Some "warning")]) /\
  snd (handleSubmitGuess FallbackListBoard (ui before_word_loads))
  <> [invalidGuessAlert FallbackListBoard] /\
  snd (handleSubmitGuess FallbackListBoard (ui (mount FallbackListBoard)))
  = [notReadyAlert].
Proof. repeat split; try reflexivity. discriminate. Qed.

(** ** Word acquisition *)

Section AcquisitionFacts.

Lemma truthy_upper : forall p : property,
  truthy p = true -> truthy_string (toUpperCase (text_of p)) = true.
Proof. intros [[|c s]|] H; try discriminate; reflexivity. Qed.

(** A word that reaches [setTargetWord] from the try block is not empty. *)
Lemma tryAcquire_word_truthy : forall v o upperWord,
  tryAcquire v o = inr upperWord -> truthy_string upperWord = true.
Proof.
  intros v o upperWord H.
  assert (Hword : forall data : json_body,
            (if negb (truthy (j_word data))
             then @inl exn string "No word received from server"%string
             else inr (toUpperCase (text_of (j_word data)))) = inr upperWord ->
            truthy_string upperWord = true).
  { intros data E. destruct (truthy (j_word data)) eqn:Hw; simpl in E; [|discriminate].
    injection E as <-. now apply truthy_upper. }
  destruct v; simpl in H.
  - destruct o as [|status statusText body]; [discriminate|].
    destruct (negb (response_ok status)); destruct body as [data|];
      try discriminate. now apply (Hword data).
  - destruct (getRandomWord o) as [|data]; [discriminate|]. now apply (Hword data).
  - destruct (getRandomWord o) as [|data]; [discriminate|]. now apply (Hword data).
  - destruct (getRandomWord o) as [|data]; [discriminate|]. now apply (Hword data).
Qed.

(** The failures the specification names are the outcomes on which the try
    block throws. *)
Lemma tryAcquire_throws : forall v o,
  acquisition_fails o = true <-> exists message, tryAcquire v o = inl message.
Proof.
  intros v o. split.
  - intros Hf. destruct o as [m|status statusText body]; simpl in Hf.
    + destruct v; simpl; eauto.
    + destruct v; simpl; unfold getRandomWord;
        destruct (negb (response_ok status)); simpl in *;
        destruct body as [data|m]; eauto;
        rewrite Hf; simpl; eauto.
  - intros [message H]. destruct o as [m|status statusText body]; [reflexivity|].
    simpl. destruct (negb (response_ok status)) eqn:Hok; [reflexivity|].
    destruct body as [data|m]; [|reflexivity]. simpl.
    destruct (negb (truthy (j_word data))) eqn:Hw; [reflexivity|].
    exfalso. destruct v; simpl in H; unfold getRandomWord in H;
      rewrite ?Hok in H; simpl in H; rewrite ?Hw in H; simpl in H;
      rewrite ?Hw in H; discriminate.
Qed.

Lemma floor_scaled_lt : forall r n,
  in_unit_interval r -> floor_scaled r n < n \/ n = 0.
Proof.
  intros [num den] n H. unfold in_unit_interval, floor_scaled in *. simpl in *.
  destruct n as [|n]; [now right|left].
  apply Nat.Div0.div_lt_upper_bound. nia.
Qed.

(** The fallback drawn is one of FALLBACK_WORDS. *)
Lemma randomFallback_in : forall r,
  in_unit_interval r -> In (randomFallback r) FALLBACK_WORDS.
Proof.
  intros r H. unfold randomFallback. apply nth_In.
  destruct (floor_scaled_lt r (length FALLBACK_WORDS) H) as [Hlt|H0]; [exact Hlt|].
  discriminate.
Qed.

Lemma fallback_words_truthy : forall w,
  In w FALLBACK_WORDS -> truthy_string w = true.
Proof.
  intros w H. simpl in H.
  repeat (destruct H as [<-|H]; [reflexivity|]). contradiction.
Qed.

(** What settling a request leaves untouched, and the loading flag. *)
Lemma resume_cells : forall v o r s,
  let s' := fst (fetchNewWord_resume v o r s) in
  guesses s' = guesses s /\ isGameOver s' = isGameOver s /\
  currentGuess s' = currentGuess s /\ isLoading s' = false.
Proof.
  intros v o r s. unfold fetchNewWord_resume.
  destruct (tryAcquire v o) as [message|upperWord].
  - destruct v; simpl; repeat split.
  - simpl; repeat split.
Qed.

Lemma resume_success : forall v o r s upperWord,
  tryAcquire v o = inr upperWord ->
  fetchNewWord_resume v o r s = (setIsLoading false (setTargetWord upperWord s), []).
Proof. intros v o r s upperWord H. unfold fetchNewWord_resume. now rewrite H. Qed.

(** In the boards that wait for a word, a word once set stays set. *)
Lemma resume_word_stays : forall v o r s,
  waitsForWord v = true -> in_unit_interval r ->
  truthy_string (targetWord s) = true ->
  truthy_string (targetWord (fst (fetchNewWord_resume v o r s))) = true.
Proof.
  intros v o r s Hw Hr Hset. unfold fetchNewWord_resume.
  destruct (tryAcquire v o) as [message|upperWord] eqn:E.
  - destruct v; try discriminate; simpl; [exact Hset|].
    apply fallback_words_truthy, randomFallback_in, Hr.
  - simpl. now apply (tryAcquire_word_truthy v o).
Qed.

End AcquisitionFacts.

(** ** Reachable states *)

Section Invariants.

Variable v : variant.

(** Whatever handlers run, and in whatever order: the history never
    exceeds 5 entries and, in the boards that wait for a word, a guess is
    only ever recorded against a word that is set. *)
Lemma reachable_history : forall w,
  reachable v w ->
  length (guesses (ui w)) <= 5 /\
  (waitsForWord v = true -> guesses (ui w) <> [] ->
   truthy_string (targetWord (ui w)) = true).
Proof.
  induction 1 as [|w e Hreach [IHlen IHword] Hadm].
  - simpl. split; [lia|]. intros _ Hne. now contradiction Hne.
  - destruct e as [text| | |id o r]; simpl.
    + split; [exact IHlen|exact IHword].
    + destruct (handleSubmitGuess v (ui w)) as [s alerts] eqn:E. simpl.
      assert (Hs : s = fst (handleSubmitGuess v (ui w))) by now rewrite E.
      pose proof (submit_guesses v (ui w)) as Hg.
      pose proof (submit_targetWord v (ui w)) as Ht.
      rewrite <- Hs in Hg, Ht. rewrite Ht.
      destruct Hg as [Hsame|(Happ & Hroom & Hset)].
      * rewrite Hsame. split; [exact IHlen|exact IHword].
      * rewrite Happ, length_app. simpl. split; [lia|]. intros Hw _. now apply Hset.
    + split; [lia|]. intros _ Hne. now contradiction Hne.
    + destruct (is_inflight id w); [|split; [exact IHlen|exact IHword]].
      destruct (fetchNewWord_resume v o r (ui w)) as [s alerts] eqn:E. simpl.
      assert (Hs : s = fst (fetchNewWord_resume v o r (ui w))) by now rewrite E.
      destruct (resume_cells v o r (ui w)) as (Hg & _ & _ & _).
      rewrite <- Hs in Hg. rewrite Hg. split; [exact IHlen|].
      intros Hw Hne. rewrite Hs. apply resume_word_stays; auto.
Qed.

(** Through the rendered controls at most one request is in flight, and
    the loading flag is up exactly while one is. *)
Lemma ui_reachable_single_request : forall w,
  ui_reachable v w ->
  (inflight w = [] /\ isLoading (ui w) = false) \/
  (exists id, inflight w = [id] /\ isLoading (ui w) = true).
Proof.
  induction 1 as [|w e Hreach IH Hadm Hen].
  - right. exists 0. split; reflexivity.
  - destruct e as [text| | |id o r]; simpl in *.
    + exact IH.
    + destruct (handleSubmitGuess v (ui w)) as [s alerts] eqn:E. simpl.
      assert (Hs : s = fst (handleSubmitGuess v (ui w))) by now rewrite E.
      rewrite Hs, submit_isLoading. exact IH.
    + right. unfold resetEnabled in Hen. apply andb_prop in Hen as [_ Hidle].
      apply negb_true_iff in Hidle.
      destruct IH as [[Hnone _]|[id [_ Hbusy]]]; [|congruence].
      exists (issued w). rewrite Hnone. split; reflexivity.
    + rewrite Hen.
      destruct (fetchNewWord_resume v o r (ui w)) as [s alerts] eqn:E. simpl.
      assert (Hs : s = fst (fetchNewWord_resume v o r (ui w))) by now rewrite E.
      destruct (resume_cells v o r (ui w)) as (_ & _ & _ & Hidle).
      rewrite <- Hs in Hidle. left. split; [|exact Hidle].
      unfold is_inflight in Hen.
      destruct IH as [[Hnone _]|[id' [Hone _]]].
      * rewrite Hnone in Hen. discriminate.
      * rewrite Hone in *. simpl in Hen. rewrite orb_false_r in Hen.
        simpl. now rewrite Hen.
Qed.

(** A run of admissible events stays within the reachable states. *)
Lemma reachable_run : forall es w,
  reachable v w -> Forall admissible es -> reachable v (run v w es).
Proof.
  induction es as [|e es IH]; intros w Hw Hadm; [exact Hw|].
  inversion Hadm; subst. simpl. apply IH; [|assumption].
  now apply reachable_step.
Qed.

End Invariants.

(** C10: when the raw input's length is not 5 and the Guess History
    already holds 5 entries, [handleSubmitGuess] answers with the length
    error, not with the game-over error, and changes nothing: in every
    state of the two boards that do not wait for a word, and in every
    reachable state of all four boards. *)
Theorem length_checked_before_history : 
  (forall (v : variant) (s : state),
     waitsForWord v = false ->
     String.length (currentGuess s) <> 5 -> 5 <= length (guesses s) ->
     handleSubmitGuess v s = (s, [invalidGuessAlert v])) /\
  (forall (v : variant) (w : world),
     reachable v w ->
     String.length (currentGuess (ui w)) <> 5 -> 5 <= length (guesses (ui w)) ->
     handleSubmitGuess v (ui w) = (ui w, [invalidGuessAlert v])) /\
  (forall v : variant,
     alert_message (invalidGuessAlert v) = "Guess must be 5 letters!" /\
     invalidGuessAlert v <> gameOverAlert v).
Proof.
  split; [|split].
  - intros v s Hw Hlen _. apply submit_wrong_length; [congruence|exact Hlen].
  - intros v w Hreach Hlen Hfull. apply submit_wrong_length; [|exact Hlen].
    intros Hw. apply (reachable_history v w Hreach); [exact Hw|].
    destruct (guesses (ui w)); [simpl in Hfull; lia|discriminate].
  - intros v. split; destruct v; try reflexivity; discriminate.
Qed.

Lemma length_checked_before_history_witness :
  length (guesses (ui lost_round_short_input)) = 5 /\
  currentGuess (ui lost_round_short_input) = "ABCD" /\
  handleSubmitGuess ExtensionsBoard (ui lost_round_short_input)
  = (ui lost_round_short_input,
     [mkAlert None "Guess must be 5 letters!" (Some "danger") None]).
Proof.
  split; [reflexivity|]. split; [reflexivity|].
  apply (proj1 length_checked_before_history ExtensionsBoard (ui lost_round_short_input)
           eq_refl).
  - simpl. discriminate.
  - simpl. lia.
Defined.

(** C5, as amended: in every reachable state the Guess History holds at
    most 5 entries; when it holds 5 and the round was not won, the Round
    Status is Lost and every [handleSubmitGuess] leaves the state
    unchanged, answering a 5-character input with the game-over error and
    an input of any other length with the length error. *)
Theorem history_bounded_and_full_rejected : forall (v : variant) (w : world),
  reachable v w ->
  length (guesses (ui w)) <= 5 /\
  (length (guesses (ui w)) = 5 -> isGameOver (ui w) = false ->
     roundStatus (ui w) = Lost /\
     fst (handleSubmitGuess v (ui w)) = ui w /\
     (String.length (currentGuess (ui w)) = 5 ->
        snd (handleSubmitGuess v (ui w)) = [gameOverAlert v]) /\
     (String.length (currentGuess (ui w)) <> 5 ->
        snd (handleSubmitGuess v (ui w)) = [invalidGuessAlert v])).
Proof.
  intros v w Hreach. destruct (reachable_history v w Hreach) as [Hle Hword].
  split; [exact Hle|]. intros Hfull Hopen.
  assert (Hset : waitsForWord v = true -> truthy_string (targetWord (ui w)) = true).
  { intros Hw. apply Hword; [exact Hw|].
    destruct (guesses (ui w)); [discriminate|discriminate]. }
  split; [|split; [|split]].
  - unfold roundStatus. now rewrite Hopen, Hfull.
  - destruct (Nat.eq_dec (String.length (currentGuess (ui w))) 5) as [Hlen|Hlen].
    + rewrite submit_history_full; auto. lia.
    + rewrite submit_wrong_length; auto.
  - intros Hlen. rewrite submit_history_full; auto. lia.
  - intros Hlen. rewrite submit_wrong_length; auto.
Qed.

Lemma history_bounded_and_full_rejected_witness :
  roundStatus (ui (run ExtensionsBoard lost_round_short_input [Typed "REACT"])) = Lost /\
  handleSubmitGuess ExtensionsBoard
    (ui (run ExtensionsBoard lost_round_short_input [Typed "REACT"]))
  = (ui (run ExtensionsBoard lost_round_short_input [Typed "REACT"]),
     [mkAlert None "Game over! You've used all 5 guesses." (Some "danger") None]).
Proof.
  assert (Hreach : reachable ExtensionsBoard
                     (run ExtensionsBoard lost_round_short_input [Typed "REACT"])).
  { repeat apply reachable_run; try apply reachable_mount;
      repeat constructor; unfold in_unit_interval; simpl; lia. }
  destruct (history_bounded_and_full_rejected ExtensionsBoard _ Hreach) as [_ Hfull].
  destruct (Hfull eq_refl eq_refl) as (Hlost & Hstate & Hsent & _).
  split; [exact Hlost|].
  rewrite (surjective_pairing (handleSubmitGuess _ _)), Hstate, (Hsent eq_refl).
  reflexivity.
Defined.

(** C5 as stated fails when the input does not have 5 characters: with 5
    guesses recorded and no win, a 4-character input is answered by the
    length error, not by the game-over error; so is the empty input the
    fifth guess itself leaves behind. *)
Lemma short_input_at_full_history :
  length (guesses (ui lost_round_short_input)) = 5 /\
  isGameOver (ui lost_round_short_input) = false /\
  currentGuess (ui lost_round_short_input) = "ABCD" /\
  snd (handleSubmitGuess ExtensionsBoard (ui lost_round_short_input))
  = [mkAlert None "Guess must be 5 letters!" (Some "danger") None] /\
  snd (handleSubmitGuess ExtensionsBoard (ui lost_round_short_input))
  <> [gameOverAlert ExtensionsBoard] /\
  currentGuess (ui lost_round) = EmptyString /\
  snd (handleSubmitGuess ExtensionsBoard (ui lost_round))
  = [mkAlert None "Guess must be 5 letters!" (Some "danger") None].
Proof. repeat split; try reflexivity. discriminate. Qed.

(** ** Reset *)

(** C8: in every state, Won and Lost included, [resetGame] empties the
    Guess History, clears the current input, resets the game-over flag and
    calls [fetchNewWord] again: a new request to the word provider is in
    flight and sends no alert; when that request is answered with a word,
    its uppercase form becomes the Secret Word of the new round, which is
    in progress with an empty history. *)
Theorem reset_starts_new_round : forall (v : variant) (w : world),
  let w' := fst (step v w Reset) in
  guesses (ui w') = [] /\
  currentGuess (ui w') = EmptyString /\
  isGameOver (ui w') = false /\
  roundStatus (ui w') = InProgress /\
  isLoading (ui w') = true /\
  inflight w' = inflight w ++ [issued w] /\
  issued w' = S (issued w) /\
  snd (step v w Reset) = [] /\
  (forall o r upperWord,
     tryAcquire v o = inr upperWord ->
     let w'' := fst (step v w' (Settle (issued w) o r)) in
     targetWord (ui w'') = upperWord /\
     guesses (ui w'') = [] /\
     roundStatus (ui w'') = InProgress /\
     isLoading (ui w'') = false).
Proof.
  intros v w w'. repeat (split; [reflexivity|]).
  intros o r upperWord Hword w''. subst w'' w'.
  cbn [step fst]. 
  assert (Hin : is_inflight (issued w) (resetGame w) = true).
  { unfold is_inflight, resetGame, Runtime.fetchNewWord. cbn [inflight].
    rewrite existsb_app. simpl. now rewrite Nat.eqb_refl, orb_true_r. }
  rewrite Hin, (resume_success v o r _ upperWord Hword). repeat split.
Qed.

Lemma reset_starts_new_round_witness :
  targetWord (ui (run ExtensionsBoard lost_round_short_input
                      [Reset; Settle 1 (served "world") half])) = "WORLD" /\
  guesses (ui (run ExtensionsBoard lost_round_short_input
                   [Reset; Settle 1 (served "world") half])) = [].
Proof.
  pose proof (reset_starts_new_round ExtensionsBoard lost_round_short_input)
    as (_ & _ & _ & _ & _ & _ & _ & _ & Hsettle).
  destruct (Hsettle (served "world") half "WORLD" eq_refl) as (Hword & Hempty & _).
  split; [exact Hword | exact Hempty].
Defined.

(** C9, as amended: the rendered Reset control is disabled while a request
    is in flight, so through the controls a Reset is never requested
    during a word-fetch, at most one request is outstanding at any time,
    and the loading flag is up exactly while one is.  The code keeps no
    round identity and no counter: whenever a request in flight is answered
    with a word, that word becomes the Secret Word. *)
Theorem reset_waits_for_fetch : forall (v : variant) (w : world),
  ui_reachable v w ->
  length (inflight w) <= 1 /\
  (inflight w <> [] <-> isLoading (ui w) = true) /\
  (enabled v w Reset = true -> inflight w = []) /\
  (forall id o r upperWord,
     is_inflight id w = true -> tryAcquire v o = inr upperWord ->
     targetWord (ui (fst (step v w (Settle id o r)))) = upperWord).
Proof.
  intros v w Hreach.
  pose proof (ui_reachable_single_request v w Hreach) as Hone.
  split; [|split; [|split]].
  - destruct Hone as [[-> _]|[id [-> _]]]; simpl; lia.
  - destruct Hone as [[-> Hidle]|[id [-> Hbusy]]]; split; intros H;
      congruence || discriminate || now contradiction H.
  - simpl. unfold resetEnabled. intros Hen. apply andb_prop in Hen as [_ Hidle].
    apply negb_true_iff in Hidle.
    destruct Hone as [[Hnone _]|[id [_ Hbusy]]]; [exact Hnone|congruence].
  - intros id o r upperWord Hin Hword. cbn [step]. rewrite Hin.
    now rewrite (resume_success v o r _ upperWord Hword).
Qed.

Lemma reset_waits_for_fetch_witness :
  inflight won_while_loading = [0] /\
  roundStatus (ui won_while_loading) = Won /\
  enabled ExtensionsBoard won_while_loading Reset = false /\
  length (inflight won_while_loading) <= 1.
Proof.
  split; [reflexivity|]. split; [reflexivity|]. split; [reflexivity|].
  apply (reset_waits_for_fetch ExtensionsBoard).
  change (ui_reachable ExtensionsBoard
            (fst (step ExtensionsBoard
                    (fst (step ExtensionsBoard (mount ExtensionsBoard) (Typed "react")))
                    SubmitGuess))).
  apply ui_reachable_step; [apply ui_reachable_step|..];
    try apply ui_reachable_mount; try exact I; reflexivity.
Defined.

(** C9 as stated fails when [resetGame] runs while the request of the
    mount is in flight: both requests are then outstanding, the request of
    the new round delivers WORLD, and the older request, answered
    afterwards, replaces it with APPLE. *)
Lemma stale_word_overwrites :
  inflight won_while_loading = [0] /\
  inflight (run ExtensionsBoard won_while_loading [Reset]) = [0; 1] /\
  targetWord (ui (run ExtensionsBoard won_while_loading
                      [Reset; Settle 1 (served "world") half])) = "WORLD" /\
  targetWord (ui (run ExtensionsBoard won_while_loading reset_during_fetch)) = "APPLE" /\
  inflight (run ExtensionsBoard won_while_loading reset_during_fetch) = [].
Proof. repeat split; reflexivity. Qed.

(** ** The fallback path *)

Lemma step_submit_ui : forall (v : variant) (w : world),
  ui (fst (step v w SubmitGuess)) = fst (handleSubmitGuess v (ui w)).
Proof. intros v w. simpl. now destruct (handleSubmitGuess v (ui w)). Qed.

(** A guess can only match a Secret Word of 5 characters. *)
Lemma submit_cannot_win : forall (v : variant) (s : state),
  String.length (targetWord s) <> 5 -> isGameOver s = false ->
  isGameOver (fst (handleSubmitGuess v s)) = false.
Proof.
  intros v s Hlen Hopen. unfold handleSubmitGuess.
  destruct (waitsForWord v && negb (truthy_string (targetWord s))); [exact Hopen|].
  destruct (String.length (currentGuess s) =? 5) eqn:Hfive; [|exact Hopen].
  cbn [negb]. destruct (5 <=? length (guesses s)); [exact Hopen|].
  destruct (String.eqb_spec (toUpperCase (currentGuess s)) (targetWord s)) as [Heq|_];
    [|exact Hopen].
  exfalso. apply Hlen. rewrite <- Heq, toUpperCase_length. now apply Nat.eqb_eq.
Qed.

(** C6, the code at the failing input: FallbackListBoard whose request
    fails while [Math.random()] returns 0.5625 draws LOVE, a word of 4
    letters, and offers the Guess control with it; no submitted input can
    then win the round.  Seven of the sixteen fallback words are not
    5-letter words. *)
Theorem fallback_word_not_five_letters :
  in_unit_interval (mkRandom 9 16) /\
  acquisition_fails network_failure = true /\
  targetWord (ui offline_round) = "LOVE" /\
  guessEnabled FallbackListBoard (ui offline_round) = true /\
  well_formed_word (targetWord (ui offline_round)) = false /\
  filter (fun w => negb (well_formed_word w)) FALLBACK_WORDS
  = ["LOVE"; "HOPE"; "JOY"; "FUN"; "TEAM"; "CODE"; "TECH"] /\
  (forall text : string,
     roundStatus (ui (run FallbackListBoard offline_round [Typed text; SubmitGuess]))
     <> Won).
Proof.
  split; [unfold in_unit_interval; simpl; lia|].
  repeat (split; [reflexivity|]).
  intros text.
  change (run FallbackListBoard offline_round [Typed text; SubmitGuess])
    with (fst (step FallbackListBoard
                 (fst (step FallbackListBoard offline_round (Typed text))) SubmitGuess)).
  rewrite step_submit_ui. unfold roundStatus.
  rewrite submit_cannot_win.
  - destruct (5 <=? _); discriminate.
  - simpl. discriminate.
  - reflexivity.
Qed.




(** ** The worked examples of the specification *)

(** SPEED against ERASE: both E's and the S are Present, nothing is Correct. *)
Example evaluate_erase_speed :
  evaluate "ERASE" "SPEED" = [Present; Absent; Absent; Present; Present].
Proof. reflexivity. Qed.

(** A guess equal to the secret is Correct throughout; a guess sharing no
    letter with it is Absent throughout. *)
Example evaluate_react_itself :
  evaluate "REACT" "REACT" = [Correct; Correct; Correct; Correct; Correct]
  /\ evaluate "MOLDY" "REACT" = [Absent; Absent; Absent; Absent; Absent].
Proof. split; reflexivity. Qed.

(** Secret REACT, guesses STACK, TRACE, REACT: the third guess wins, three
    guesses are recorded and the Guess control is gone. *)
Example react_in_three :
  let w := run ExtensionsBoard (mount ExtensionsBoard)
             [ Settle 0 (served "react") half;
               Typed "stack"; SubmitGuess; Typed "trace"; SubmitGuess;
               Typed "react"; SubmitGuess ] in
  guesses (ui w) = ["STACK"; "TRACE"; "REACT"]
  /\ roundStatus (ui w) = Won
  /\ enabled ExtensionsBoard w SubmitGuess = false
  /\ evaluate "REACT" (targetWord (ui w)) = [Correct; Correct; Correct; Correct; Correct].
Proof. repeat split; reflexivity. Qed.

(** * Further properties of the code *)

(** ** Submitting *)

Section SubmitOutcomes.

Variable v : variant.

(** A submit that changes the history was an accepted one. *)
Lemma submit_recorded : forall s,
  guesses (fst (handleSubmitGuess v s)) <> guesses s ->
  String.length (currentGuess s) = 5 /\ length (guesses s) < 5 /\
  (waitsForWord v = true -> truthy_string (targetWord s) = true).
Proof.
  intros s Hchanged.
  destruct (waitsForWord v && negb (truthy_string (targetWord s))) eqn:Hguard.
  - exfalso. apply Hchanged. unfold handleSubmitGuess. now rewrite Hguard.
  - assert (Hword : waitsForWord v = true -> truthy_string (targetWord s) = true).
    { intros E. rewrite E in Hguard. now apply negb_false_iff in Hguard. }
    destruct (Nat.eq_dec (String.length (currentGuess s)) 5) as [Hlen|Hlen].
    + destruct (Nat.lt_ge_cases (length (guesses s)) 5) as [Hroom|Hfull]; [auto|].
      exfalso. apply Hchanged. now rewrite submit_history_full.
    + exfalso. apply Hchanged. now rewrite submit_wrong_length.
Qed.

End SubmitOutcomes.

(** X1: a call of [handleSubmitGuess] either refuses, leaving every cell
    as it was and sending exactly one alert (not ready, wrong length or
    game over), or records: the input had 5 characters, fewer than 5
    guesses were recorded, the uppercase input is appended, the input is
    cleared, and the success alert is sent and the game-over flag set
    exactly when the uppercase input equals the Secret Word, no alert
    being sent otherwise.  A refusal is never silent. *)
Theorem submit_refuses_or_records : forall (v : variant) (s : state),
  (fst (handleSubmitGuess v s) = s /\
   (snd (handleSubmitGuess v s) = [notReadyAlert] \/
    snd (handleSubmitGuess v s) = [invalidGuessAlert v] \/
    snd (handleSubmitGuess v s) = [gameOverAlert v]))
  \/
  (String.length (currentGuess s) = 5 /\ length (guesses s) < 5 /\
   guesses (fst (handleSubmitGuess v s)) = guesses s ++ [toUpperCase (currentGuess s)] /\
   currentGuess (fst (handleSubmitGuess v s)) = EmptyString /\
   targetWord (fst (handleSubmitGuess v s)) = targetWord s /\
   isLoading (fst (handleSubmitGuess v s)) = isLoading s /\
   ((toUpperCase (currentGuess s) = targetWord s /\
     isGameOver (fst (handleSubmitGuess v s)) = true /\
     snd (handleSubmitGuess v s) = [wonAlert v])
    \/
    (toUpperCase (currentGuess s) <> targetWord s /\
     isGameOver (fst (handleSubmitGuess v s)) = isGameOver s /\
     snd (handleSubmitGuess v s) = []))).
Proof.
  intros v s.
  destruct (waitsForWord v && negb (truthy_string (targetWord s))) eqn:Hguard.
  { left. unfold handleSubmitGuess. rewrite Hguard. simpl. auto. }
  assert (Hword : waitsForWord v = true -> truthy_string (targetWord s) = true).
  { intros E. rewrite E in Hguard. now apply negb_false_iff in Hguard. }
  destruct (Nat.eq_dec (String.length (currentGuess s)) 5) as [Hlen|Hlen].
  - destruct (Nat.lt_ge_cases (length (guesses s)) 5) as [Hroom|Hfull].
    + right. rewrite (submit_accepted v s Hword Hlen Hroom). cbv zeta.
      destruct (String.eqb_spec (toUpperCase (currentGuess s)) (targetWord s)) as [Heq|Hne];
        simpl; repeat (split; [auto; fail|]); [left|right]; auto.
    + left. rewrite (submit_history_full v s Hword Hlen Hfull). simpl. auto.
  - left. rewrite (submit_wrong_length v s Hword Hlen). simpl. auto.
Qed.

(** X2: submitting again right after a guess was recorded, without typing,
    records nothing: the input was cleared, so the second call is refused
    with the length error and leaves the state as the first call left it. *)
Theorem resubmit_is_refused : forall (v : variant) (s : state),
  guesses (fst (handleSubmitGuess v s)) <> guesses s ->
  handleSubmitGuess v (fst (handleSubmitGuess v s))
  = (fst (handleSubmitGuess v s), [invalidGuessAlert v]).
Proof.
  intros v s Hchanged.
  destruct (submit_recorded v s Hchanged) as (Hlen & Hroom & Hword).
  apply submit_wrong_length.
  - intros Hw. rewrite submit_targetWord. now apply Hword.
  - rewrite (submit_accepted v s Hword Hlen Hroom). cbv zeta.
    destruct (String.eqb _ _); simpl; discriminate.
Qed.

Lemma resubmit_is_refused_witness :
  handleSubmitGuess ExtensionsBoard
    (fst (handleSubmitGuess ExtensionsBoard (mkState "stack" [] "REACT" false false)))
  = (mkState EmptyString ["STACK"] "REACT" false false,
     [mkAlert None "Guess must be 5 letters!" (Some "danger") None]).
Proof.
  exact (resubmit_is_refused ExtensionsBoard (mkState "stack" [] "REACT" false false)
           ltac:(simpl; discriminate)).
Defined.

(** ** What every reachable state satisfies *)

Section WordFacts.


(** Settling a request leaves a word in every board but NoFallbackBoard,
    which keeps the word it had. *)
Lemma resume_word_set : forall v o r s,
  in_unit_interval r ->
  v <> NoFallbackBoard \/ truthy_string (targetWord s) = true ->
  truthy_string (targetWord (fst (fetchNewWord_resume v o r s))) = true.
Proof.
  intros v o r s Hr Hv. unfold fetchNewWord_resume.
  destruct (tryAcquire v o) as [message|upperWord] eqn:E.
  - destruct v; simpl; try reflexivity.
    + destruct Hv as [Hv|Hset]; [congruence|exact Hset].
    + apply fallback_words_truthy, randomFallback_in, Hr.
  - simpl. now apply (tryAcquire_word_truthy v o).
Qed.

Lemma resume_failure : forall v o r s message,
  tryAcquire v o = inl message ->
  fetchNewWord_resume v o r s
  = (setIsLoading false (fst (catchAcquire v message r s)),
     snd (catchAcquire v message r s)).
Proof.
  intros v o r s message H. unfold fetchNewWord_resume. rewrite H.
  now destruct (catchAcquire v message r s).
Qed.

Lemma step_settle_ui : forall v w id o r,
  is_inflight id w = true ->
  ui (fst (step v w (Settle id o r))) = fst (fetchNewWord_resume v o r (ui w)).
Proof.
  intros v w id o r Hin. cbn [step]. rewrite Hin.
  now destruct (fetchNewWord_resume v o r (ui w)).
Qed.

Lemma step_settle_idle : forall v w id o r,
  is_inflight id w = false -> fst (step v w (Settle id o r)) = w.
Proof. intros v w id o r Hin. cbn [step]. now rewrite Hin. Qed.

End WordFacts.





(** X5: no handler clears the Secret Word: once a word is set it is set
    after every run of events; and in the two boards that start with the
    word REACT a word is set in every reachable state. *)
Theorem secret_word_never_cleared :
  (forall (v : variant) (w : world) (es : list event),
     Forall admissible es ->
     truthy_string (targetWord (ui w)) = true ->
     truthy_string (targetWord (ui (run v w es))) = true) /\
  (forall (v : variant) (w : world),
     waitsForWord v = false -> reachable v w ->
     truthy_string (targetWord (ui w)) = true).
Proof.
  assert (Hstep : forall v w e, admissible e ->
            truthy_string (targetWord (ui w)) = true ->
            truthy_string (targetWord (ui (fst (step v w e)))) = true).
  { intros v w e Hadm Hset. destruct e as [text| | |id o r].
    - exact Hset.
    - now rewrite step_submit_ui, submit_targetWord.
    - exact Hset.
    - destruct (is_inflight id w) eqn:Hin.
      + rewrite (step_settle_ui v w id o r Hin). apply resume_word_set; auto.
      + now rewrite (step_settle_idle v w id o r Hin). }
  split.
  - intros v w es. revert w. induction es as [|e es IH]; intros w Hadm Hset; [exact Hset|].
    inversion Hadm; subst. simpl. apply IH; [assumption|]. now apply Hstep.
  - intros v w Hv Hreach. induction Hreach as [|w e Hreach IH Hadm].
    + destruct v; try discriminate; reflexivity.
    + now apply Hstep.
Qed.

Lemma secret_word_never_cleared_witness :
  truthy_string (targetWord (ui (run NoFallbackBoard
                                     (run NoFallbackBoard (mount NoFallbackBoard)
                                          [Settle 0 (served "world") half])
                                     [Reset; Settle 1 network_failure half]))) = true.
Proof.
  apply (proj1 secret_word_never_cleared NoFallbackBoard).
  - repeat constructor; unfold in_unit_interval; simpl; lia.
  - reflexivity.
Defined.

(** ** The try and catch blocks of fetchNewWord *)

Section ProviderFacts.

(** What the card returns holds a word. *)
Lemma getRandomWord_returns_word : forall o data,
  getRandomWord o = inr data -> truthy (j_word data) = true.
Proof.
  intros [m|status statusText body] data H; simpl in H; [discriminate|].
  destruct (negb (response_ok status)); [discriminate|].
  destruct body as [d|m]; [|discriminate].
  destruct (truthy (j_word d)) eqn:Hw; simpl in H; [|discriminate].
  now injection H as <-.
Qed.

(** With the card's [getRandomWord] the try block of a board is [tryWith]. *)
Lemma tryAcquire_tryWith : forall v o,
  v <> ExtensionsBoard -> tryAcquire v o = tryWith (getRandomWord o).
Proof. intros v o Hv. destruct v; [congruence|reflexivity..]. Qed.

End ProviderFacts.

(** X6: the four boards derive the same Secret Word from a served word:
    for every response with a status in 200-299 whose [word] is a
    non-empty string, every board hands its [toUpperCase()] to
    [setTargetWord], clears the loading flag, leaves the other cells alone
    and sends no alert. *)
Theorem boards_agree_on_served_word :
  forall (status : nat) (statusText : string) (data : json_body) (word : string),
  response_ok status = true -> j_word data = Some word -> word <> EmptyString ->
  forall (v : variant) (r : random) (s : state),
    tryAcquire v (FetchResponse status statusText (JsonParsed data))
    = inr (toUpperCase word) /\
    fetchNewWord_resume v (FetchResponse status statusText (JsonParsed data)) r s
    = (mkState (currentGuess s) (guesses s) (toUpperCase word) (isGameOver s) false, []).
Proof.
  intros status statusText data word Hok Hword Hne v r s.
  assert (Htruthy : truthy (j_word data) = true).
  { rewrite Hword. destruct word; [congruence|reflexivity]. }
  assert (Htry : tryAcquire v (FetchResponse status statusText (JsonParsed data))
                 = inr (toUpperCase word)).
  { destruct v; simpl; unfold getRandomWord; rewrite ?Hok; simpl;
      rewrite ?Htruthy; simpl; rewrite ?Htruthy; simpl; now rewrite Hword. }
  split; [exact Htry|]. now rewrite (resume_success _ _ r s _ Htry).
Qed.

Lemma boards_agree_on_served_word_witness :
  fetchNewWord_resume NoFallbackBoard (served "world") half (ui (mount NoFallbackBoard))
  = (mkState EmptyString [] "WORLD" false false, []).
Proof.
  exact (proj2 (boards_agree_on_served_word 200 "OK" (mkBody (Some "world") None None)
                  "world" eq_refl eq_refl ltac:(discriminate)
                  NoFallbackBoard half (ui (mount NoFallbackBoard)))).
Defined.

(** X7: in the boards that receive [getRandomWord], the board's own test
    of the word never fires: whatever the card returns holds a word that
    passes it, and whatever the card throws reaches the catch block of the
    board as it is.  So a response without a word is reported as "Invalid
    response from word service." only by ExtensionsBoard; NoFallbackBoard
    and ReactFallbackBoard, whose catch block looks for "No word
    received", get the card's "Invalid response: missing word property"
    and fall through to "Failed to fetch new word.". *)
Theorem board_word_test_never_fires :
  (forall (o : fetch_outcome) (data : json_body),
     getRandomWord o = inr data -> negb (truthy (j_word data)) = false) /\
  (forall (v : variant) (o : fetch_outcome) (message : string),
     v <> ExtensionsBoard ->
     getRandomWord o = inl message -> tryAcquire v o = inl message) /\
  (forall (v : variant) status statusText data (r : random) (s : state),
     response_ok status = true -> truthy (j_word data) = false ->
     map alert_message
         (snd (fetchNewWord_resume v (FetchResponse status statusText (JsonParsed data)) r s))
     = match v with
       | ExtensionsBoard => ["Invalid response from word service."]
       | NoFallbackBoard | ReactFallbackBoard => ["Failed to fetch new word."]
       | FallbackListBoard =>
           [alert_message
              (offlineAlert "Invalid response: missing word property" (randomFallback r))]
       end).
Proof.
  split; [|split].
  - intros o data Hreturn. now rewrite (getRandomWord_returns_word o data Hreturn).
  - intros v o message Hv Hthrow. rewrite (tryAcquire_tryWith v o Hv), Hthrow. reflexivity.
  - intros v status statusText data r s Hok Hword.
    assert (Hthrow : tryAcquire v (FetchResponse status statusText (JsonParsed data))
                     = inl (match v with
                            | ExtensionsBoard => "No word received from server"
                            | _ => "Invalid response: missing word property"
                            end)%string).
    { destruct v; simpl; unfold getRandomWord; rewrite ?Hok; simpl;
        rewrite ?Hword; reflexivity. }
    rewrite (resume_failure _ _ r s _ Hthrow). destruct v; reflexivity.
Qed.

Lemma board_word_test_never_fires_witness :
  map alert_message
      (snd (fetchNewWord_resume ReactFallbackBoard
              (FetchResponse 200 "OK" (JsonParsed (mkBody None None None))) half
              (initial ReactFallbackBoard)))
  = ["Failed to fetch new word."].
Proof.
  exact (proj2 (proj2 board_word_test_never_fires) ReactFallbackBoard 200 "OK"
           (mkBody None None None) half (initial ReactFallbackBoard) eq_refl eq_refl).
Defined.

(** X8: the message the card builds for a refused request is the one the
    catch block of the boards looks for.  In NoFallbackBoard and
    ReactFallbackBoard a response with status 404 is reported as "Word
    service not found. Please contact support.", whatever its status text
    and body, and a response with status 500 whose status text does not
    contain 404 as "Word service is temporarily down. Please try again.".
    ExtensionsBoard reports the same for these statuses when the body
    carries no error text of its own. *)
Theorem refused_status_reported :
  forall (v : variant) (statusText : string) (body : json_result) (r : random) (s : state),
  (v = NoFallbackBoard \/ v = ReactFallbackBoard) \/
  (v = ExtensionsBoard /\
   match body with
   | JsonRejected _ => True
   | JsonParsed errorData =>
       truthy (j_error errorData) = false /\ truthy (j_message errorData) = false
   end) ->
  map alert_message (snd (fetchNewWord_resume v (FetchResponse 404 statusText body) r s))
  = ["Word service not found. Please contact support."] /\
  (includes statusText "404" = false ->
   map alert_message (snd (fetchNewWord_resume v (FetchResponse 500 statusText body) r s))
   = ["Word service is temporarily down. Please try again."]).
Proof.
  intros v statusText body r s Hcase.
  assert (Hcard : forall v' code,
            v' = NoFallbackBoard \/ v' = ReactFallbackBoard ->
            code = 404 \/ code = 500 ->
            tryAcquire v' (FetchResponse code statusText body)
            = inl ("HTTP error! status: " ++ string_of_nat code ++ " " ++ statusText)%string).
  { intros v' code [-> | ->] [-> | ->]; reflexivity. }
  destruct Hcase as [Hv | [-> Hbody]].
  - split.
    + rewrite (resume_failure v _ r s _ (Hcard v 404 Hv (or_introl eq_refl))).
      destruct Hv as [-> | ->]; reflexivity.
    + intros Hno.
      rewrite (resume_failure v _ r s _ (Hcard v 500 Hv (or_intror eq_refl))).
      assert (Hmsg : userMessage ("HTTP error! status: " ++ string_of_nat 500 ++ " "
                                    ++ statusText)%string
                     = "Word service is temporarily down. Please try again."%string).
      { unfold userMessage.
        cbn [includes String.prefix append string_of_nat orb].
        simpl. rewrite Hno. reflexivity. }
      destruct Hv as [-> | ->]; cbn [catchAcquire snd map alert_message];
        now rewrite Hmsg.
  - assert (H404 : tryAcquire ExtensionsBoard (FetchResponse 404 statusText body)
                   = inl "HTTP 404"%string).
    { destruct body as [errorData|m]; [|reflexivity]. destruct Hbody as [He Hm].
      simpl. unfold or_else. now rewrite He, Hm. }
    assert (H500 : tryAcquire ExtensionsBoard (FetchResponse 500 statusText body)
                   = inl "HTTP 500"%string).
    { destruct body as [errorData|m]; [|reflexivity]. destruct Hbody as [He Hm].
      simpl. unfold or_else. now rewrite He, Hm. }
    split.
    + now rewrite (resume_failure ExtensionsBoard _ r s _ H404).
    + intros _. now rewrite (resume_failure ExtensionsBoard _ r s _ H500).
Qed.

Lemma refused_status_reported_witness :
  map alert_message
      (snd (fetchNewWord_resume NoFallbackBoard
              (FetchResponse 404 "Not Found" (JsonRejected "Unexpected token")) half
              (initial NoFallbackBoard)))
  = ["Word service not found. Please contact support."]
  /\
  map alert_message
      (snd (fetchNewWord_resume NoFallbackBoard
              (FetchResponse 500 "Internal Server Error" (JsonRejected "Unexpected token"))
              half (initial NoFallbackBoard)))
  = ["Word service is temporarily down. Please try again."].
Proof.
  destruct (refused_status_reported NoFallbackBoard "Not Found"
              (JsonRejected "Unexpected token") half (initial NoFallbackBoard)
              (or_introl (or_introl eq_refl))) as [H404 _].
  destruct (refused_status_reported NoFallbackBoard "Internal Server Error"
              (JsonRejected "Unexpected token") half (initial NoFallbackBoard)
              (or_introl (or_introl eq_refl))) as [_ H500].
  split; [exact H404 | exact (H500 eq_refl)].
Defined.

(** X9: the card under src/app/cards returns or throws exactly what the
    earlier card did, but sends no alert of its own.  A board mounted in
    the earlier card ends in the same state and, on every failed
    acquisition, shows two alerts: the card's "Failed to get random word:"
    alert of type danger, then the board's own; in the present card it
    shows the board's alert alone.  When acquisition succeeds neither
    sends an alert. *)
Theorem card_no_longer_alerts :
  forall (v : variant) (o : fetch_outcome) (r : random) (s : state),
  v <> ExtensionsBoard ->
  fst (legacyGetRandomWord o) = getRandomWord o /\
  fst (fetchNewWord_resume_legacy v o r s) = fst (fetchNewWord_resume v o r s) /\
  (forall message, getRandomWord o = inl message ->
     snd (fetchNewWord_resume_legacy v o r s)
     = mkAlert None ("Failed to get random word: " ++ message)%string (Some "danger") None
       :: snd (fetchNewWord_resume v o r s)
     /\ length (snd (fetchNewWord_resume v o r s)) = 1
     /\ length (snd (fetchNewWord_resume_legacy v o r s)) = 2) /\
  (forall data, getRandomWord o = inr data ->
     snd (fetchNewWord_resume_legacy v o r s) = [] /\
     snd (fetchNewWord_resume v o r s) = []).
Proof.
  intros v o r s Hv.
  assert (Hlegacy : legacyGetRandomWord o
                    = (getRandomWord o,
                       match getRandomWord o with
                       | inl message =>
                           [mkAlert None ("Failed to get random word: " ++ message)%string
                                    (Some "danger") None]
                       | inr _ => []
                       end)).
  { unfold legacyGetRandomWord, getRandomWord.
    destruct o as [m|status statusText body]; [reflexivity|].
    destruct (negb (response_ok status)); [reflexivity|].
    destruct body as [data|m]; [|reflexivity].
    destruct (negb (truthy (j_word data))); reflexivity. }
  assert (Hresume : fetchNewWord_resume_legacy v o r s
                    = (fst (fetchNewWord_resume v o r s),
                       snd (legacyGetRandomWord o) ++ snd (fetchNewWord_resume v o r s))).
  { unfold fetchNewWord_resume_legacy, fetchNewWord_resume.
    rewrite (tryAcquire_tryWith v o Hv), Hlegacy. cbn [snd].
    destruct (tryWith (getRandomWord o)) as [message|upperWord]; [|reflexivity].
    now destruct (catchAcquire v message r s). }
  split; [now rewrite Hlegacy|]. split; [now rewrite Hresume|]. split.
  - intros message Hthrow.
    assert (Hboard : tryAcquire v o = inl message).
    { rewrite (tryAcquire_tryWith v o Hv), Hthrow. reflexivity. }
    assert (Hone : length (snd (fetchNewWord_resume v o r s)) = 1).
    { rewrite (resume_failure v o r s message Hboard). destruct v; reflexivity. }
    rewrite Hresume, Hlegacy, Hthrow. cbn [snd app]. repeat split; [exact Hone|].
    simpl. now rewrite Hone.
  - intros data Hreturn.
    assert (Hword : truthy (j_word data) = true)
      by exact (getRandomWord_returns_word o data Hreturn).
    assert (Hboard : tryAcquire v o = inr (toUpperCase (text_of (j_word data)))).
    { rewrite (tryAcquire_tryWith v o Hv), Hreturn. unfold tryWith. now rewrite Hword. }
    rewrite Hresume, Hlegacy, Hreturn, (resume_success v o r s _ Hboard). split; reflexivity.
Qed.

Lemma card_no_longer_alerts_witness :
  length (snd (fetchNewWord_resume_legacy FallbackListBoard network_failure half
                 (initial FallbackListBoard))) = 2 /\
  length (snd (fetchNewWord_resume FallbackListBoard network_failure half
                 (initial FallbackListBoard))) = 1.
Proof.
  destruct (card_no_longer_alerts FallbackListBoard network_failure half
              (initial FallbackListBoard) ltac:(discriminate))
    as (_ & _ & Hfail & _).
  destruct (Hfail "Failed to fetch" eq_refl) as (_ & Hone & Htwo).
  split; [exact Htwo | exact Hone].
Defined.

(** X10: the fallback drawn by FallbackListBoard is always one of the
    sixteen words of FALLBACK_WORDS, and every one of them can be drawn:
    a word is in the list exactly when some value of [Math.random()]
    selects it. *)
Theorem fallback_draw_exact : forall word : string,
  In word FALLBACK_WORDS <->
  exists r : random, in_unit_interval r /\ randomFallback r = word.
Proof.
  intros word. split.
  - intros Hin. destruct (In_nth _ _ EmptyString Hin) as [i [Hi Hnth]].
    exists (mkRandom i (length FALLBACK_WORDS)). split; [exact Hi|].
    unfold randomFallback, floor_scaled. cbn [rnd_num rnd_den].
    rewrite Nat.div_mul; [exact Hnth|]. simpl. discriminate.
  - intros [r [Hr <-]]. now apply randomFallback_in.
Qed.

Lemma fallback_draw_exact_witness :
  exists r : random, in_unit_interval r /\ randomFallback r = "DREAM".
Proof.
  apply (proj1 (fallback_draw_exact "DREAM")). simpl. tauto.
Defined.

(** ** What the rendered controls allow *)

Section ControlFacts.

Variable v : variant.

Lemma ui_reachable_reachable : forall w, ui_reachable v w -> reachable v w.
Proof.
  induction 1 as [|w e Hreach IH Hadm Hen]; [apply reachable_mount|].
  now apply reachable_step.
Qed.

(** Outside NoFallbackBoard a board that is not loading has a word. *)
Lemma idle_board_has_word : forall w,
  v <> NoFallbackBoard -> reachable v w ->
  isLoading (ui w) = true \/ truthy_string (targetWord (ui w)) = true.
Proof.
  intros w Hv. induction 1 as [|w e Hreach IH Hadm].
  - now left.
  - destruct e as [text| | |id o r].
    + exact IH.
    + now rewrite step_submit_ui, submit_isLoading, submit_targetWord.
    + now left.
    + destruct (is_inflight id w) eqn:Hin.
      * right. rewrite (step_settle_ui v w id o r Hin). apply resume_word_set; auto.
      * now rewrite (step_settle_idle v w id o r Hin).
Qed.

(** In the boards that wait for a word, through the controls: while a
    request is in flight nothing is recorded, and the game-over flag is up
    exactly when the history holds the Secret Word. *)
Lemma gated_board_invariant : forall w,
  waitsForWord v = true -> ui_reachable v w ->
  (isLoading (ui w) = true -> guesses (ui w) = [] /\ isGameOver (ui w) = false) /\
  (isGameOver (ui w) = true <-> In (targetWord (ui w)) (guesses (ui w))).
Proof.
  intros w Hw. induction 1 as [|w e Hreach [IHload IHwon] Hadm Hen].
  - destruct v; try discriminate; simpl; (split; [auto|]); split;
      (discriminate || contradiction).
  - pose proof (ui_reachable_single_request v w Hreach) as Hone.
    destruct e as [text| | |id o r].
    + split; [exact IHload|exact IHwon].
    + simpl in Hen. unfold guessEnabled in Hen. rewrite Hw in Hen.
      apply andb_prop in Hen as [Hopen Hready].
      apply negb_true_iff in Hopen. apply negb_true_iff, orb_false_elim in Hready.
      destruct Hready as [_ Hidle].
      unfold gameEnded in Hopen. apply orb_false_elim in Hopen as [Hover _].
      rewrite step_submit_ui. split.
      * rewrite submit_isLoading. congruence.
      * assert (Hnot : ~ In (targetWord (ui w)) (guesses (ui w))).
        { intros Hin. apply IHwon in Hin. congruence. }
        rewrite submit_targetWord.
        destruct (submit_guesses v (ui w)) as [Hsame|(Happ & Hroom & Hword)].
        -- assert (Hflag : isGameOver (fst (handleSubmitGuess v (ui w))) = false).
           { unfold handleSubmitGuess in *.
             destruct (waitsForWord v && negb (truthy_string (targetWord (ui w))));
               [exact Hover|].
             destruct (negb (String.length (currentGuess (ui w)) =? 5)); [exact Hover|].
             destruct (5 <=? length (guesses (ui w))); [exact Hover|].
             exfalso. destruct (String.eqb _ _); simpl in Hsame;
               apply (f_equal (@length string)) in Hsame;
               rewrite length_app in Hsame; simpl in Hsame; lia. }
           rewrite Hflag, Hsame. split; [discriminate|contradiction].
        -- assert (Hchanged : guesses (fst (handleSubmitGuess v (ui w))) <> guesses (ui w)).
           { rewrite Happ. intros E. apply (f_equal (@length string)) in E.
             rewrite length_app in E. simpl in E. lia. }
           destruct (submit_recorded v (ui w) Hchanged) as (Hlen & _ & _).
           rewrite Happ. rewrite (submit_accepted v (ui w) Hword Hlen Hroom). cbv zeta.
           destruct (String.eqb_spec (toUpperCase (currentGuess (ui w))) (targetWord (ui w)))
             as [Heq|Hne]; simpl.
           ++ split; [intros _|reflexivity]. apply in_or_app. right. now left.
           ++ rewrite Hover. split; [discriminate|]. intros Hin.
              apply in_app_or in Hin as [Hin|[Hin|[]]]; [contradiction|congruence].
    + simpl. split; [auto|]. split; [discriminate|contradiction].
    + simpl in Hen. rewrite (step_settle_ui v w id o r Hen).
      destruct (resume_cells v o r (ui w)) as (Hg & Hover & _ & Hidle).
      assert (Hbusy : isLoading (ui w) = true).
      { destruct Hone as [[Hnone _]|[id' [_ Hbusy]]]; [|exact Hbusy].
        unfold is_inflight in Hen. rewrite Hnone in Hen. discriminate. }
      destruct (IHload Hbusy) as [Hempty Hopen].
      rewrite Hg, Hover, Hidle, Hempty, Hopen.
      split; [discriminate|]. split; [discriminate|contradiction].
Qed.

End ControlFacts.

(** X11: outside NoFallbackBoard the rendered board is never dead: in
    every state reached through the controls a request is in flight, or
    the Guess control is enabled, or the Reset control is enabled. *)
Theorem some_control_is_live : forall (v : variant) (w : world),
  v <> NoFallbackBoard -> ui_reachable v w ->
  inflight w <> [] \/ guessEnabled v (ui w) = true \/ resetEnabled (ui w) = true.
Proof.
  intros v w Hv Hreach.
  destruct (ui_reachable_single_request v w Hreach) as [[_ Hidle]|[id [Hone _]]].
  - right.
    destruct (idle_board_has_word v w Hv (ui_reachable_reachable v w Hreach))
      as [Hbusy|Hword]; [congruence|].
    unfold guessEnabled, resetEnabled, gameReady. rewrite Hidle, Hword.
    destruct (gameEnded (ui w)); [now right|left].
    now destruct (waitsForWord v).
  - left. rewrite Hone. discriminate.
Qed.

Lemma some_control_is_live_witness :
  inflight won_while_loading <> [] \/
  guessEnabled ExtensionsBoard (ui won_while_loading) = true \/
  resetEnabled (ui won_while_loading) = true.
Proof.
  apply (some_control_is_live ExtensionsBoard won_while_loading); [discriminate|].
  change (ui_reachable ExtensionsBoard
            (fst (step ExtensionsBoard
                    (fst (step ExtensionsBoard (mount ExtensionsBoard) (Typed "react")))
                    SubmitGuess))).
  apply ui_reachable_step; [apply ui_reachable_step|..];
    try apply ui_reachable_mount; try exact I; reflexivity.
Defined.

(** X12: NoFallbackBoard whose first request fails is dead: no word is
    set, nothing is in flight, the input is read-only, the Guess control is
    disabled and the Reset control is not rendered, so no event is enabled
    and the user cannot retry. *)
Theorem failed_first_load_is_dead :
  forall (o : fetch_outcome) (r : random) (e : event),
  acquisition_fails o = true -> in_unit_interval r ->
  ui_reachable NoFallbackBoard
    (fst (step NoFallbackBoard (mount NoFallbackBoard) (Settle 0 o r))) /\
  fst (step NoFallbackBoard (mount NoFallbackBoard) (Settle 0 o r))
  = mkWorld (mkState EmptyString [] EmptyString false false) [] 1 /\
  enabled NoFallbackBoard
    (fst (step NoFallbackBoard (mount NoFallbackBoard) (Settle 0 o r))) e = false.
Proof.
  intros o r e Hfail Hr.
  destruct (proj1 (tryAcquire_throws NoFallbackBoard o) Hfail) as [message Hthrow].
  assert (Hw : fst (step NoFallbackBoard (mount NoFallbackBoard) (Settle 0 o r))
               = mkWorld (mkState EmptyString [] EmptyString false false) [] 1).
  { cbn [step mount Runtime.fetchNewWord is_inflight inflight issued ui existsb app
         Nat.eqb orb].
    rewrite (resume_failure NoFallbackBoard o r _ message Hthrow). reflexivity. }
  split; [|split; [exact Hw|]].
  - apply ui_reachable_step; [apply ui_reachable_mount|exact Hr|reflexivity].
  - rewrite Hw. destruct e as [text| | |id o' r']; reflexivity.
Qed.

Lemma failed_first_load_is_dead_witness :
  enabled NoFallbackBoard (fst failed_first_load) Reset = false /\
  enabled NoFallbackBoard (fst failed_first_load) SubmitGuess = false.
Proof.
  split.
  - apply (failed_first_load_is_dead network_failure half Reset eq_refl).
    unfold in_unit_interval; simpl; lia.
  - apply (failed_first_load_is_dead network_failure half SubmitGuess eq_refl).
    unfold in_unit_interval; simpl; lia.
Defined.

(** X13: in the two boards that wait for a word, through the controls the
    round is Won exactly when the Guess History holds the Secret Word, and
    the Secret Word does not change while guesses are recorded: no guess is
    accepted while a request is in flight. *)
Theorem gated_board_won_iff_guessed : forall (v : variant) (w : world),
  waitsForWord v = true -> ui_reachable v w ->
  (roundStatus (ui w) = Won <-> In (targetWord (ui w)) (guesses (ui w))) /\
  (inflight w <> [] -> guesses (ui w) = []) /\
  (forall e, admissible e -> enabled v w e = true -> guesses (ui w) <> [] ->
     targetWord (ui (fst (step v w e))) = targetWord (ui w)).
Proof.
  intros v w Hw Hreach.
  destruct (gated_board_invariant v w Hw Hreach) as [Hload Hwon].
  assert (Hquiet : inflight w <> [] -> guesses (ui w) = []).
  { intros Hbusy.
    destruct (ui_reachable_single_request v w Hreach) as [[Hnone _]|[id [_ Hl]]];
      [contradiction|]. now apply Hload. }
  split; [|split; [exact Hquiet|]].
  - unfold roundStatus. destruct (isGameOver (ui w)).
    + split; [intros _; now apply Hwon|reflexivity].
    + split.
      * destruct (5 <=? length (guesses (ui w))); discriminate.
      * intros Hin. apply Hwon in Hin. discriminate.
  - intros e Hadm Hen Hsome. destruct e as [text| | |id o r].
    + reflexivity.
    + now rewrite step_submit_ui, submit_targetWord.
    + reflexivity.
    + exfalso. apply Hsome, Hquiet. simpl in Hen. unfold is_inflight in Hen.
      intros Hnone. rewrite Hnone in Hen. discriminate.
Qed.

Lemma gated_board_won_iff_guessed_witness :
  roundStatus (ui (run FallbackListBoard (mount FallbackListBoard)
                       [Settle 0 (served "world") half; Typed "world"; SubmitGuess]))
  = Won.
Proof.
  apply (gated_board_won_iff_guessed FallbackListBoard
           (run FallbackListBoard (mount FallbackListBoard)
                [Settle 0 (served "world") half; Typed "world"; SubmitGuess])
           eq_refl).
  - change (ui_reachable FallbackListBoard
              (fst (step FallbackListBoard
                 (fst (step FallbackListBoard
                    (fst (step FallbackListBoard (mount FallbackListBoard)
                            (Settle 0 (served "world") half)))
                    (Typed "world")))
                 SubmitGuess))).
    apply ui_reachable_step;
      [apply ui_reachable_step;
         [apply ui_reachable_step;
            [apply ui_reachable_mount
            |unfold admissible, in_unit_interval; simpl; lia
            |reflexivity]
         |exact I|reflexivity]
      |exact I|reflexivity].
  - simpl. tauto.
Defined.

(** X14: once the game has ended (won, or 5 guesses recorded) the only
    control that is enabled is Reset: typing and guessing are disabled in
    every board, and a request that settles leaves the history, the input
    and the game-over flag as they are, so the game stays ended with the
    same history until Reset. *)
Theorem ended_game_is_frozen : forall (v : variant) (w : world) (e : event),
  gameEnded (ui w) = true -> enabled v w e = true ->
  e = Reset \/
  ((exists id o r, e = Settle id o r) /\
   guesses (ui (fst (step v w e))) = guesses (ui w) /\
   currentGuess (ui (fst (step v w e))) = currentGuess (ui w) /\
   isGameOver (ui (fst (step v w e))) = isGameOver (ui w) /\
   gameEnded (ui (fst (step v w e))) = true).
Proof.
  intros v w e Hended Hen. destruct e as [text| | |id o r].
  - exfalso. simpl in Hen. unfold inputReadOnly in Hen. rewrite Hended in Hen.
    destruct (waitsForWord v); discriminate.
  - exfalso. simpl in Hen. unfold guessEnabled in Hen. rewrite Hended in Hen.
    discriminate.
  - now left.
  - right. simpl in Hen. rewrite (step_settle_ui v w id o r Hen).
    destruct (resume_cells v o r (ui w)) as (Hg & Hover & Hcur & _).
    split; [now exists id, o, r|]. repeat split; auto.
    unfold gameEnded in *. now rewrite Hg, Hover.
Qed.

Lemma ended_game_is_frozen_witness :
  guesses (ui (fst (step ExtensionsBoard won_while_loading
                          (Settle 0 (served "world") half))))
  = guesses (ui won_while_loading).
Proof.
  destruct (ended_game_is_frozen ExtensionsBoard won_while_loading
              (Settle 0 (served "world") half) eq_refl eq_refl)
    as [Habs|(_ & Hsame & _)]; [discriminate|exact Hsame].
Defined.

(** X15: the two boards that start with the word REACT accept guesses
    while the first request is in flight.  A guess of REACT made then wins
    the round, and when the request is answered with another word the
    board shows a won round whose Secret Word is in no recorded guess. *)
Theorem win_against_initial_word : forall (v : variant) (word : string),
  waitsForWord v = false ->
  truthy_string word = true -> toUpperCase word <> "REACT" ->
  ui_reachable v (run v (mount v) [Typed "react"; SubmitGuess; Settle 0 (served word) half]) /\
  ui (run v (mount v) [Typed "react"; SubmitGuess; Settle 0 (served word) half])
  = mkState EmptyString ["REACT"] (toUpperCase word) true false /\
  roundStatus (ui (run v (mount v) [Typed "react"; SubmitGuess; Settle 0 (served word) half]))
  = Won /\
  ~ In (toUpperCase word) ["REACT"].
Proof.
  intros v word Hv Hword Hother.
  assert (Hserved : tryAcquire v (served word) = inr (toUpperCase word)).
  { destruct word as [|c word]; [discriminate|]. destruct v; reflexivity. }
  assert (Hwon : fst (step v (fst (step v (mount v) (Typed "react"))) SubmitGuess)
                 = mkWorld (mkState EmptyString ["REACT"] "REACT" true true) [0] 1).
  { destruct v; try discriminate; reflexivity. }
  assert (Hrun : run v (mount v) [Typed "react"; SubmitGuess; Settle 0 (served word) half]
                 = mkWorld (mkState EmptyString ["REACT"] (toUpperCase word) true false) [] 1).
  { cbn [run]. rewrite Hwon. cbn [step is_inflight inflight existsb Nat.eqb orb ui issued].
    rewrite (resume_success v _ half _ _ Hserved). reflexivity. }
  split; [|split; [|split]].
  - cbn [run].
    apply ui_reachable_step;
      [apply ui_reachable_step; [apply ui_reachable_step|..]|..];
      try apply ui_reachable_mount; try exact I.
    + destruct v; try discriminate; reflexivity.
    + destruct v; try discriminate; reflexivity.
    + unfold admissible, in_unit_interval; simpl; lia.
    + rewrite Hwon. reflexivity.
  - now rewrite Hrun.
  - now rewrite Hrun.
  - intros [Hin|[]]. now apply Hother.
Qed.

Lemma win_against_initial_word_witness :
  ui (run ExtensionsBoard (mount ExtensionsBoard)
          [Typed "react"; SubmitGuess; Settle 0 (served "world") half])
  = mkState EmptyString ["REACT"] "WORLD" true false.
Proof.
  apply (win_against_initial_word ExtensionsBoard "world" eq_refl eq_refl).
  discriminate.
Defined.

(** X16: a reset round starts like a fresh one: when the request of
    [resetGame] is answered, the cells are exactly those of a newly mounted
    board whose first request got the same answer, whatever the state the
    reset started from.  This holds for every answer in the three boards
    with a fallback, and for every served word in NoFallbackBoard (which,
    on a failure, keeps the word of the previous round). *)
Theorem reset_round_like_fresh_mount :
  forall (v : variant) (w : world) (o : fetch_outcome) (r : random),
  v <> NoFallbackBoard \/ acquisition_fails o = false ->
  ui (fst (step v (resetGame w) (Settle (issued w) o r)))
  = ui (fst (step v (mount v) (Settle 0 o r))).
Proof.
  intros v w o r Hcase.
  assert (Hin : is_inflight (issued w) (resetGame w) = true).
  { unfold is_inflight, resetGame, Runtime.fetchNewWord. cbn [inflight].
    rewrite existsb_app. simpl. now rewrite Nat.eqb_refl, orb_true_r. }
  rewrite (step_settle_ui v _ _ o r Hin), (step_settle_ui v (mount v) 0 o r eq_refl).
  unfold fetchNewWord_resume.
  destruct (tryAcquire v o) as [message|upperWord] eqn:E.
  - destruct v; try reflexivity.
    destruct Hcase as [Hv|Hok]; [congruence|].
    assert (Hfail : acquisition_fails o = true)
      by (apply (tryAcquire_throws NoFallbackBoard o); eauto).
    congruence.
  - reflexivity.
Qed.

Lemma reset_round_like_fresh_mount_witness :
  ui (fst (step FallbackListBoard (resetGame offline_round)
             (Settle (issued offline_round) (served "world") half)))
  = mkState EmptyString [] "WORLD" false false.
Proof.
  exact (reset_round_like_fresh_mount FallbackListBoard offline_round
           (served "world") half (or_intror eq_refl)).
Defined.

(** ** The rendered board *)

(** The controls of the model are the rendered ones. *)
Lemma render_controls : forall (v : variant) (s : state),
  input_readOnly (render v s) = inputReadOnly v s /\
  guessEnabled v s = negb (button_resets (render v s)) && negb (button_disabled (render v s)) /\
  resetEnabled s = button_resets (render v s) && negb (button_disabled (render v s)).
Proof.
  intros v s. unfold render, inputReadOnly, guessEnabled, resetEnabled.
  destruct (waitsForWord v); cbn [input_readOnly button_resets button_disabled];
    destruct (gameEnded s); auto.
Qed.

(** X17: in every reachable state the board renders one row per recorded
    guess, in the order of the history, at most 5 of them, each against
    the Secret Word of that moment; the test of the word in front of the
    rows never hides a recorded guess. *)
Theorem every_guess_is_rendered : forall (v : variant) (w : world),
  reachable v w ->
  map fst (rows (render v (ui w))) = guesses (ui w) /\
  length (rows (render v (ui w))) <= 5 /\
  Forall (fun row => snd row = targetWord (ui w)) (rows (render v (ui w))).
Proof.
  intros v w Hreach. destruct (reachable_history v w Hreach) as [Hle Hword].
  assert (Hall : forall (word : string) (gs : list string),
            map fst (map (fun guess => (guess, word)) gs) = gs /\
            length (map (fun guess => (guess, word)) gs) = length gs /\
            Forall (fun row => snd row = word) (map (fun guess => (guess, word)) gs)).
  { intros word gs. induction gs as [|g gs [IH1 [IH2 IH3]]]; simpl.
    - repeat split. constructor.
    - repeat split; [congruence|congruence|]. now constructor. }
  assert (Hrows : rows (render v (ui w))
                  = map (fun guess => (guess, targetWord (ui w))) (guesses (ui w))).
  { unfold render, renderedRows. destruct (waitsForWord v) eqn:Hw; cbn [rows]; [|reflexivity].
    destruct (guesses (ui w)) as [|g gs] eqn:Hg.
    - now destruct (truthy_string (targetWord (ui w))).
    - rewrite Hword; [reflexivity|reflexivity|discriminate]. }
  rewrite Hrows. destruct (Hall (targetWord (ui w)) (guesses (ui w))) as (H1 & H2 & H3).
  repeat split; [exact H1|lia|exact H3].
Qed.

Lemma every_guess_is_rendered_witness :
  map fst (rows (render ExtensionsBoard (ui lost_round)))
  = ["STACK"; "TRACE"; "CRATE"; "CARET"; "CATER"].
Proof.
  apply (every_guess_is_rendered ExtensionsBoard lost_round).
  repeat apply reachable_run; try apply reachable_mount;
    repeat constructor; unfold in_unit_interval; simpl; lia.
Defined.

(** X18: in the three boards with a fallback, through the controls, the
    board says it is loading only while a request is in flight: the
    placeholder "Loading word..." and the button label "Loading..." are
    shown only then, and a disabled button always carries the label
    "Loading...".  NoFallbackBoard whose first request failed shows the
    placeholder "Loading word..." and a disabled Guess button although
    nothing is in flight. *)
Theorem loading_is_shown_only_while_loading :
  (forall (v : variant) (w : world),
     v <> NoFallbackBoard -> ui_reachable v w ->
     (input_placeholder (render v (ui w)) = "Loading word..." -> inflight w <> []) /\
     (button_label (render v (ui w)) = "Loading..." -> inflight w <> []) /\
     (button_disabled (render v (ui w)) = true ->
        button_label (render v (ui w)) = "Loading...")) /\
  (forall (o : fetch_outcome) (r : random),
     acquisition_fails o = true ->
     render NoFallbackBoard
            (ui (fst (step NoFallbackBoard (mount NoFallbackBoard) (Settle 0 o r))))
     = mkView EmptyString "Loading word..." true false true "Guess" []
     /\ inflight (fst (step NoFallbackBoard (mount NoFallbackBoard) (Settle 0 o r))) = []).
Proof.
  split.
  - intros v w Hv Hreach.
    assert (Hflight : isLoading (ui w) = true -> inflight w <> []).
    { intros Hbusy.
      destruct (ui_reachable_single_request v w Hreach) as [[_ Hidle]|[id [Hone _]]];
        [congruence|]. rewrite Hone. discriminate. }
    assert (Hword : isLoading (ui w) = false -> truthy_string (targetWord (ui w)) = true).
    { intros Hidle.
      destruct (idle_board_has_word v w Hv (ui_reachable_reachable v w Hreach));
        [congruence|assumption]. }
    unfold render, gameReady.
    destruct (waitsForWord v); cbn [input_placeholder button_label button_disabled];
      destruct (isLoading (ui w)) eqn:Hl; try rewrite (Hword eq_refl);
      destruct (gameEnded (ui w)); simpl;
      repeat split; intros H; try discriminate; auto.
  - intros o r Hfail.
    destruct (proj1 (tryAcquire_throws NoFallbackBoard o) Hfail) as [message Hthrow].
    assert (Hw : fst (step NoFallbackBoard (mount NoFallbackBoard) (Settle 0 o r))
                 = mkWorld (mkState EmptyString [] EmptyString false false) [] 1).
    { cbn [step mount Runtime.fetchNewWord is_inflight inflight issued ui existsb app
           Nat.eqb orb].
      rewrite (resume_failure NoFallbackBoard o r _ message Hthrow). reflexivity. }
    rewrite Hw. split; reflexivity.
Qed.

Lemma loading_is_shown_only_while_loading_witness :
  button_label (render ExtensionsBoard (ui won_while_loading)) = "Loading..." /\
  inflight won_while_loading <> [].
Proof.
  split; [reflexivity|].
  apply (proj1 loading_is_shown_only_while_loading ExtensionsBoard won_while_loading);
    [discriminate| |reflexivity].
  change (ui_reachable ExtensionsBoard
            (fst (step ExtensionsBoard
                    (fst (step ExtensionsBoard (mount ExtensionsBoard) (Typed "react")))
                    SubmitGuess))).
  apply ui_reachable_step; [apply ui_reachable_step|..];
    try apply ui_reachable_mount; try exact I; reflexivity.
Defined.

(** ** Alerts and sequences of guesses *)

(** X19: every handler call sends at most one alert, in the shape of its
    board: ExtensionsBoard fills [message] and [type] only, with type
    danger, success or error; the other boards fill [title], [message] and
    [variant], with variant danger, success, error or warning. *)
Theorem alerts_fit_the_board : forall (v : variant) (w : world) (e : event),
  length (snd (step v w e)) <= 1 /\
  Forall (fun a =>
            match v with
            | ExtensionsBoard =>
                alert_title a = None /\ alert_variant a = None /\
                In (alert_type a) [Some "danger"; Some "success"; Some "error"]
            | _ =>
                alert_title a <> None /\ alert_type a = None /\
                In (alert_variant a)
                   [Some "danger"; Some "success"; Some "error"; Some "warning"]
            end)
         (snd (step v w e)).
Proof.
  intros v w e. destruct e as [text| | |id o r]; cbn [step].
  - simpl. split; [lia|constructor].
  - assert (Hsnd : snd (let (s, alerts) := handleSubmitGuess v (ui w) in
                        (mkWorld s (inflight w) (issued w), alerts))
                   = snd (handleSubmitGuess v (ui w)))
      by now destruct (handleSubmitGuess v (ui w)).
    rewrite Hsnd. unfold handleSubmitGuess.
    destruct (waitsForWord v && negb (truthy_string (targetWord (ui w)))) eqn:Hguard.
    { destruct v; try discriminate; simpl; (split; [lia|]); repeat constructor;
        try discriminate; simpl; tauto. }
    destruct (negb (String.length (currentGuess (ui w)) =? 5)).
    { destruct v; simpl; (split; [lia|]); repeat constructor;
        try discriminate; simpl; tauto. }
    destruct (5 <=? length (guesses (ui w))).
    { destruct v; simpl; (split; [lia|]); repeat constructor;
        try discriminate; simpl; tauto. }
    destruct (String.eqb _ _); destruct v; simpl; (split; [lia|]); repeat constructor;
      try discriminate; simpl; tauto.
  - simpl. split; [lia|constructor].
  - destruct (is_inflight id w); [|simpl; split; [lia|constructor]].
    assert (Hsnd : snd (let (s, alerts) := fetchNewWord_resume v o r (ui w) in
                        (mkWorld s (filter (fun x => negb (Nat.eqb id x)) (inflight w))
                                 (issued w), alerts))
                   = snd (fetchNewWord_resume v o r (ui w)))
      by now destruct (fetchNewWord_resume v o r (ui w)).
    rewrite Hsnd.
    destruct (tryAcquire v o) as [message|upperWord] eqn:E.
    + rewrite (resume_failure v o r (ui w) message E).
      destruct v; simpl; (split; [lia|]); repeat constructor;
        try discriminate; simpl; tauto.
    + rewrite (resume_success v o r (ui w) upperWord E).
      destruct v; simpl; (split; [lia|]); constructor.
Qed.

(** X20: guesses that miss are recorded one after the other: from a round
    in progress with a word set, typing and submitting 5-character inputs
    that all differ from the Secret Word, as long as the history has room,
    appends their uppercase forms in order, leaves the Secret Word and the
    game-over flag as they were, and the round is Lost exactly when the
    history thereby holds 5 entries. *)
Theorem misses_fill_the_history :
  forall (v : variant) (texts : list string) (w : world),
  truthy_string (targetWord (ui w)) = true ->
  isGameOver (ui w) = false ->
  length (guesses (ui w)) + length texts <= 5 ->
  Forall (fun t => String.length t = 5 /\ toUpperCase t <> targetWord (ui w)) texts ->
  guesses (ui (run v w (flat_map (fun t => [Typed t; SubmitGuess]) texts)))
  = guesses (ui w) ++ map toUpperCase texts /\
  targetWord (ui (run v w (flat_map (fun t => [Typed t; SubmitGuess]) texts)))
  = targetWord (ui w) /\
  isGameOver (ui (run v w (flat_map (fun t => [Typed t; SubmitGuess]) texts))) = false /\
  roundStatus (ui (run v w (flat_map (fun t => [Typed t; SubmitGuess]) texts)))
  = (if length (guesses (ui w)) + length texts =? 5 then Lost else InProgress).
Proof.
  intros v texts. induction texts as [|t texts IH]; intros w Hword Hopen Hroom Hmiss.
  - simpl. rewrite app_nil_r, Nat.add_0_r. repeat split; auto.
    unfold roundStatus. rewrite Hopen. simpl in Hroom.
    destruct (5 <=? length (guesses (ui w))) eqn:E1;
      destruct (length (guesses (ui w)) =? 5) eqn:E2; try reflexivity; exfalso;
      [apply Nat.leb_le in E1; apply Nat.eqb_neq in E2
      |apply Nat.leb_gt in E1; apply Nat.eqb_eq in E2]; lia.
  - inversion Hmiss as [|t' texts' [Hlen Hne] Hrest]; subst.
    simpl in Hroom.
    set (w1 := fst (step v (fst (step v w (Typed t))) SubmitGuess)).
    change (run v w (flat_map (fun t0 => [Typed t0; SubmitGuess]) (t :: texts)))
      with (run v w1 (flat_map (fun t0 => [Typed t0; SubmitGuess]) texts)).
    assert (Hw1 : ui w1 = setCurrentGuess EmptyString
                            (setGuesses (guesses (ui w) ++ [toUpperCase t])
                                        (setCurrentGuess t (ui w)))).
    { unfold w1. rewrite step_submit_ui. cbn [step fst ui].
      rewrite submit_accepted; cbn [currentGuess guesses targetWord setCurrentGuess];
        try assumption; try lia; [|auto].
      cbv zeta. cbn [currentGuess guesses targetWord setCurrentGuess].
      destruct (String.eqb_spec (toUpperCase t) (targetWord (ui w))) as [Heq|_];
        [contradiction|reflexivity]. }
    assert (Hg1 : guesses (ui w1) = guesses (ui w) ++ [toUpperCase t]) by now rewrite Hw1.
    assert (Ht1 : targetWord (ui w1) = targetWord (ui w)) by now rewrite Hw1.
    assert (Ho1 : isGameOver (ui w1) = isGameOver (ui w)) by now rewrite Hw1.
    destruct (IH w1) as (Hg & Ht & Ho & Hs).
    + now rewrite Ht1.
    + now rewrite Ho1.
    + rewrite Hg1, length_app. simpl. lia.
    + now rewrite Ht1.
    + rewrite Hg, Ht, Ho, Hs, Hg1, Ht1, length_app, <- app_assoc. simpl.
      repeat split; auto.
      replace (length (guesses (ui w)) + 1 + length texts)
        with (length (guesses (ui w)) + S (length texts)) by lia.
      reflexivity.
Qed.

Lemma misses_fill_the_history_witness :
  guesses (ui lost_round) = ["STACK"; "TRACE"; "CRATE"; "CARET"; "CATER"] /\
  roundStatus (ui lost_round) = Lost.
Proof.
  destruct (misses_fill_the_history ExtensionsBoard
              ["stack"; "trace"; "crate"; "caret"; "cater"]
              (run ExtensionsBoard (mount ExtensionsBoard) [Settle 0 (served "react") half])
              eq_refl eq_refl ltac:(simpl; lia)
              ltac:(repeat constructor; discriminate))
    as (Hg & _ & _ & Hs).
  split; [exact Hg | exact Hs].
Defined.
